(** * Netmiko: Juniper and HP Comware session drivers

    A shallow embedding of [netmiko/juniper/juniper.py] and
    [netmiko/hp/hp_comware.py].  Methods of the driver classes become
    functions in a state-and-exception monad over the session object; the
    methods inherited from [BaseConnection] / [CiscoSSHConnection] (whose
    code lives outside these files) are taken as parameters. *)

From Stdlib Require Import String Ascii List Bool ZArith QArith Lia.
From Stdlib Require Import DecimalString.
Import ListNotations.

Open Scope string_scope.
Open Scope list_scope.

(** ** Python string primitives used by the drivers *)

Module PyStr.

(** The characters the drivers name explicitly. *)
Definition LF : ascii := "010"%char.
Definition DQUOTE : ascii := "034"%char.
Definition nl : string := String LF EmptyString.

(** [s.startswith(p)], returning the remainder after the prefix. *)
Fixpoint drop_prefix (p s : string) : option string :=
  match p with
  | EmptyString => Some s
  | String a p' =>
      match s with
      | EmptyString => None
      | String b s' => if Ascii.eqb a b then drop_prefix p' s' else None
      end
  end.

(** [s.partition(sep)] at the first (leftmost) occurrence of [sep]:
    [Some (before, after)], or [None] when [sep] does not occur. *)
Fixpoint cut (sep s : string) : option (string * string) :=
  match drop_prefix sep s with
  | Some rest => Some (EmptyString, rest)
  | None =>
      match s with
      | EmptyString => None
      | String c s' =>
          match cut sep s' with
          | Some (b, a) => Some (String c b, a)
          | None => None
          end
      end
  end.

(** [sub in s] *)
Definition contains (sub s : string) : bool :=
  match cut sub s with Some _ => true | None => false end.

(** [c in s] for a one-character needle. *)
Fixpoint has_char (c : ascii) (s : string) : bool :=
  match s with
  | EmptyString => false
  | String a s' => Ascii.eqb c a || has_char c s'
  end.

(** Truthiness of a [str]: non-empty. *)
Definition truthy (s : string) : bool :=
  match s with EmptyString => false | String _ _ => true end.

(** [s.split(sep)] for a non-empty separator: cut at each successive
    leftmost occurrence.  Every cut consumes at least one character, so
    [length s] rounds are enough. *)
Fixpoint split_fuel (n : nat) (sep s : string) : list string :=
  match n with
  | O => [s]
  | S n' =>
      match cut sep s with
      | None => [s]
      | Some (b, a) => b :: split_fuel n' sep a
      end
  end.

Definition split (sep s : string) : list string :=
  split_fuel (String.length s) sep s.

(** The same as a relation, without the round counter. *)
Inductive Pieces (sep : string) : string -> list string -> Prop :=
| Pieces_last (s : string) :
    cut sep s = None -> Pieces sep s [s]
| Pieces_more (s b a : string) (l : list string) :
    cut sep s = Some (b, a) -> Pieces sep a l -> Pieces sep s (b :: l).

(** [sep.join(l)] *)
Fixpoint join (sep : string) (l : list string) : string :=
  match l with
  | [] => EmptyString
  | [x] => x
  | x :: rest => x ++ sep ++ join sep rest
  end.

(** [l[-1]] on a non-empty list, [l[:-1]]. *)
Definition last_item (l : list string) : string := List.last l EmptyString.
Definition but_last (l : list string) : list string := List.removelast l.

(** [str(n)] for an [int]. *)
Definition str_int (n : Z) : string := NilZero.string_of_int (Z.to_int n).

End PyStr.

(** ** The fragment of [re] the drivers use

    Patterns are regular expressions in the strict sense, so [re.search]
    succeeding is language membership of some substring; it is decided
    with Brzozowski derivatives. *)

Module Re.

Local Open Scope string_scope.

Inductive regex : Type :=
| Void                      (* matches nothing *)
| Eps                       (* the empty string *)
| Chr (c : ascii)           (* an escaped or ordinary literal *)
| Dot                       (* [.]: any character but a newline *)
| AnyChar                   (* any character at all *)
| Cat (r1 r2 : regex)
| Alt (r1 r2 : regex)
| Star (r : regex).

Fixpoint nullable (r : regex) : bool :=
  match r with
  | Void | Chr _ | Dot | AnyChar => false
  | Eps | Star _ => true
  | Cat r1 r2 => nullable r1 && nullable r2
  | Alt r1 r2 => nullable r1 || nullable r2
  end.

Fixpoint deriv (a : ascii) (r : regex) : regex :=
  match r with
  | Void | Eps => Void
  | Chr c => if Ascii.eqb a c then Eps else Void
  | Dot => if Ascii.eqb a PyStr.LF then Void else Eps
  | AnyChar => Eps
  | Cat r1 r2 =>
      if nullable r1
      then Alt (Cat (deriv a r1) r2) (deriv a r2)
      else Cat (deriv a r1) r2
  | Alt r1 r2 => Alt (deriv a r1) (deriv a r2)
  | Star r1 => Cat (deriv a r1) (Star r1)
  end.

(** [re.fullmatch] *)
Fixpoint fullmatch (r : regex) (s : string) : bool :=
  match s with
  | EmptyString => nullable r
  | String a s' => fullmatch (deriv a r) s'
  end.

(** [re.search(r, s)] as a truth value: some substring of [s] is in
    the language of [r]. *)
Definition search (r : regex) (s : string) : bool :=
  fullmatch (Cat (Star AnyChar) (Cat r (Star AnyChar))) s.

(** A literal run of characters. *)
Fixpoint lit (s : string) : regex :=
  match s with
  | EmptyString => Eps
  | String a s' => Cat (Chr a) (lit s')
  end.

(** The language of a pattern. *)
Inductive matches : regex -> string -> Prop :=
| M_eps : matches Eps EmptyString
| M_chr (c : ascii) : matches (Chr c) (String c EmptyString)
| M_dot (c : ascii) : c <> PyStr.LF -> matches Dot (String c EmptyString)
| M_any (c : ascii) : matches AnyChar (String c EmptyString)
| M_cat (r1 r2 : regex) (s1 s2 : string) :
    matches r1 s1 -> matches r2 s2 -> matches (Cat r1 r2) (s1 ++ s2)
| M_alt_l (r1 r2 : regex) (s : string) :
    matches r1 s -> matches (Alt r1 r2) s
| M_alt_r (r1 r2 : regex) (s : string) :
    matches r2 s -> matches (Alt r1 r2) s
| M_star_nil (r : regex) : matches (Star r) EmptyString
| M_star_more (r : regex) (s1 s2 : string) :
    matches r s1 -> matches (Star r) s2 -> matches (Star r) (s1 ++ s2).

End Re.

(** ** Exceptions, the session object and the driver monad *)

(** Exceptions that reach the drivers from outside their own code: the
    classes of [netmiko/ssh_exception.py] and Python's built-in ones. *)
Inductive foreign_exception : Type :=
| NetmikoTimeoutException
| NetmikoAuthenticationException
| ConfigInvalidException
| ReadException
| BuiltinError (cls msg : string).

(** The drivers themselves raise [ValueError] at five sites.  The design
    document names them by role; the constructor records the role and its
    argument the message of the [ValueError]. *)
Inductive exn : Type :=
| InvalidCommitArguments (msg : string)
| CommitFailedError (msg : string)
| ModeTransitionError (msg : string)
| Inherited (e : foreign_exception).

Inductive result (E A : Type) : Type :=
| Ok (a : A)
| Raise (e : E).
Arguments Ok {E A} a.
Arguments Raise {E A} e.

(** One record per call into an inherited method, with the arguments the
    driver passed.  [EvSendCommand] also notes the value [self.fast_cli]
    had when the call was made. *)
Inductive event : Type :=
| EvCheckConfigMode (check_string : string)
| EvConfigMode (config_command pattern : string) (re_flags : Z)
| EvExitConfigMode (exit_config pattern : string)
| EvSendCommandTiming (command_string : string)
    (strip_prompt strip_command : bool)
| EvSendCommand (command_string : string) (expect_string : option string)
    (strip_prompt strip_command : bool) (delay_factor : Q)
    (fast_cli_seen : bool).

(** The commands an event puts on the channel on the driver's behalf. *)
Definition command_of (e : event) : option string :=
  match e with
  | EvCheckConfigMode _ => None
  | EvConfigMode c _ _ => Some c
  | EvExitConfigMode c _ => Some c
  | EvSendCommandTiming c _ _ => Some c
  | EvSendCommand c _ _ _ _ _ => Some c
  end.

Fixpoint commands_sent (t : list event) : list string :=
  match t with
  | [] => []
  | e :: t' =>
      match command_of e with
      | Some c => c :: commands_sent t'
      | None => commands_sent t'
      end
  end.

Section Driver.

(** State of the transport and of the device behind it. *)
Variable Chan : Type.

(** The attributes of [self] the drivers read or assign. *)
Record Session : Type := mkSession {
  fast_cli : bool;
  legacy_mode : bool;               (* [self._legacy_mode] *)
  base_prompt : string;
  RESPONSE_RETURN : string;
  global_delay_factor : Q;
  channel : Chan
}.

Definition set_fast_cli (b : bool) (s : Session) : Session :=
  {| fast_cli := b;
     legacy_mode := legacy_mode s;
     base_prompt := base_prompt s;
     RESPONSE_RETURN := RESPONSE_RETURN s;
     global_delay_factor := global_delay_factor s;
     channel := channel s |}.

(** The session together with the log of inherited calls. *)
Record World : Type := mkWorld {
  session : Session;
  trace : list event
}.

Definition M (A : Type) : Type := World -> result exn A * World.

Definition ret {A} (a : A) : M A := fun w => (Ok a, w).

Definition bind {A B} (c : M A) (k : A -> M B) : M B :=
  fun w =>
    match c w with
    | (Ok a, w') => k a w'
    | (Raise e, w') => (Raise e, w')
    end.

Definition raise {A} (e : exn) : M A := fun w => (Raise e, w).

Definition get_session : M Session := fun w => (Ok (session w), w).

Definition assign_fast_cli (b : bool) : M unit :=
  fun w => (Ok tt, {| session := set_fast_cli b (session w);
                      trace := trace w |}).

Definition lift_result {A} (r : result exn A) : M A := fun w => (r, w).

(** [try: body finally: handler] *)
Definition try_finally {A} (body : M A) (handler : M unit) : M A :=
  fun w =>
    match body w with
    | (r, w1) =>
        match handler w1 with
        | (Ok _, w2) => (r, w2)
        | (Raise e, w2) => (Raise e, w2)
        end
    end.

(** A call into an inherited method: run it on the session, log it,
    and let its exception, if any, propagate. *)
Definition call {A} (ev : Session -> event)
    (op : Session -> result foreign_exception A * Session) : M A :=
  fun w =>
    match op (session w) with
    | (r, s') =>
        (match r with Ok a => Ok a | Raise e => Raise (Inherited e) end,
         {| session := s'; trace := trace w ++ [ev (session w)] |})
    end.

End Driver.

Arguments mkSession {Chan}.
Arguments fast_cli {Chan}.
Arguments legacy_mode {Chan}.
Arguments base_prompt {Chan}.
Arguments RESPONSE_RETURN {Chan}.
Arguments global_delay_factor {Chan}.
Arguments channel {Chan}.
Arguments set_fast_cli {Chan}.
Arguments mkWorld {Chan}.
Arguments session {Chan}.
Arguments trace {Chan}.
Arguments ret {Chan A}.
Arguments bind {Chan A B}.
Arguments raise {Chan A}.
Arguments get_session {Chan}.
Arguments assign_fast_cli {Chan}.
Arguments lift_result {Chan A}.
Arguments try_finally {Chan A}.
Arguments call {Chan A}.

Declare Scope driver_scope.
Delimit Scope driver_scope with driver.
Notation "x <- c ;; k" := (bind c (fun x => k))
  (at level 61, c at next level, right associativity) : driver_scope.
Notation "c ;;; k" := (bind c (fun _ => k))
  (at level 61, right associativity) : driver_scope.
Open Scope driver_scope.

(** ** [netmiko/juniper/juniper.py]: class [JuniperBase] *)

Module Juniper.

Import PyStr.
Local Open Scope string_scope.

(** The methods [JuniperBase] inherits from [BaseConnection] and calls
    through [self] or [super()].  Each may assign any attribute of the
    session and may raise; [select_delay_factor] only reads.  Delay
    factors, floats in Python, are rationals here. *)
Record BaseConnection (Chan : Type) : Type := mkBase {
  select_delay_factor : Q -> Session Chan -> Q;
  base_check_config_mode :
    string -> Session Chan -> result foreign_exception bool * Session Chan;
  base_config_mode :
    string -> string -> Z ->
    Session Chan -> result foreign_exception string * Session Chan;
  send_command_timing :
    string -> bool -> bool ->
    Session Chan -> result foreign_exception string * Session Chan;
  send_command :
    string -> option string -> bool -> bool -> Q ->
    Session Chan -> result foreign_exception string * Session Chan
}.
Arguments select_delay_factor {Chan}.
Arguments base_check_config_mode {Chan}.
Arguments base_config_mode {Chan}.
Arguments send_command_timing {Chan}.
Arguments send_command {Chan}.

(** Truthiness of [confirm_delay], which is [None] or an [int]. *)
Definition delay_truthy (confirm_delay : option Z) : bool :=
  match confirm_delay with
  | None => false
  | Some n => negb (n =? 0)%Z
  end.

(** [str(confirm_delay)] *)
Definition str_delay (confirm_delay : option Z) : string :=
  match confirm_delay with
  | None => "None"
  | Some n => str_int n
  end.

(** [delay_factor < 1] *)
Definition below_one (d : Q) : bool := negb (Qle_bool 1 d).

Definition strings_to_strip : list Re.regex :=
  let shape (opening : string) (closing : ascii) :=
    Re.Cat (Re.lit opening) (Re.Cat (Re.Star Re.Dot) (Re.Chr closing)) in
  [ shape "[edit" "]"%char;
    shape "{master:" "}"%char;
    shape "{backup:" "}"%char;
    shape "{line" "}"%char;
    shape "{primary" "}"%char;
    shape "{secondary" "}"%char ].

(** Lines 143-172 of [commit]: argument validation and the command
    string with its success marker.  This block touches no attribute
    of [self]. *)
Definition commit_command (confirm : bool) (confirm_delay : option Z)
    (check : bool) (comment : string) (and_quit : bool)
  : result exn (string * string) :=
  if check && (confirm || delay_truthy confirm_delay || truthy comment)
  then Raise (InvalidCommitArguments
                "Invalid arguments supplied with commit check")
  else if delay_truthy confirm_delay && negb confirm
  then Raise (InvalidCommitArguments
        "Invalid arguments supplied to commit method both confirm and check")
  else
    let '(command_string, commit_marker) :=
      if check
      then ("commit check", "configuration check succeeds")
      else if confirm
      then (if delay_truthy confirm_delay
            then "commit confirmed " ++ str_delay confirm_delay
            else "commit confirmed",
            "commit confirmed will be automatically rolled back in")
      else ("commit", "commit complete") in
    let finish (command_string : string) :=
      Ok (if and_quit then command_string ++ " and-quit"
          else command_string,
          commit_marker) in
    if truthy comment
    then if has_char DQUOTE comment
         then Raise (InvalidCommitArguments
                       "Invalid comment contains double quote")
         else finish (command_string ++ " comment "
                        ++ (String DQUOTE comment
                              ++ String DQUOTE EmptyString))
    else finish command_string.

Section Methods.

Variable Chan : Type.
Variable base : BaseConnection Chan.
(** [re.escape] *)
Variable re_escape : string -> string.

Definition check_config_mode (check_string : string) : M Chan bool :=
  call (fun _ => EvCheckConfigMode check_string)
       (base_check_config_mode base check_string).

Definition config_mode (config_command pattern : string) (re_flags : Z)
  : M Chan string :=
  call (fun _ => EvConfigMode config_command pattern re_flags)
       (base_config_mode base config_command pattern re_flags).

Definition call_send_command_timing (command_string : string)
    (strip_prompt strip_command : bool) : M Chan string :=
  call (fun _ =>
          EvSendCommandTiming command_string strip_prompt strip_command)
       (send_command_timing base command_string strip_prompt
          strip_command).

Definition call_send_command (command_string : string)
    (expect_string : option string) (strip_prompt strip_command : bool)
    (delay_factor : Q) : M Chan string :=
  call (fun s =>
          EvSendCommand command_string expect_string strip_prompt
            strip_command delay_factor (fast_cli s))
       (send_command base command_string expect_string strip_prompt
          strip_command delay_factor).

Definition exit_config_mode (exit_config : string) : M Chan string :=
  in_config <- check_config_mode "]" ;;
  if in_config : bool then
    output <- call_send_command_timing exit_config false false ;;
    output <-
      (if contains "Exit with uncommitted changes?" output
       then more <- call_send_command_timing "yes" false false ;;
            ret (output ++ more)
       else ret output) ;;
    still_config <- check_config_mode "]" ;;
    if still_config : bool
    then raise (ModeTransitionError "Failed to exit configuration mode")
    else ret output
  else ret "".

(** Lines 136-141 of [commit]: the delay factor handed to
    [send_command]. *)
Definition commit_delay_factor (delay_factor : Q) (self : Session Chan)
  : Q :=
  let delay_factor := select_delay_factor base delay_factor self in
  if below_one delay_factor
  then if negb (legacy_mode self) && fast_cli self
       then 1%Q else delay_factor
  else delay_factor.

(** Lines 178-181 of [commit]. *)
Definition commit_expect_string (and_quit : bool) (self : Session Chan)
  : option string :=
  if and_quit then Some (re_escape (base_prompt self)) else None.

Definition commit (confirm : bool) (confirm_delay : option Z)
    (check : bool) (comment : string) (and_quit : bool)
    (delay_factor : Q) : M Chan string :=
  self <- get_session ;;
  let delay_factor := commit_delay_factor delay_factor self in
  cm <- lift_result
          (commit_command confirm confirm_delay check comment and_quit) ;;
  let '(command_string, commit_marker) := cm in
  output <- config_mode "configure" "Entering configuration mode" 0 ;;
  self <- get_session ;;
  let expect_string := commit_expect_string and_quit self in
  let fast_cli_state := fast_cli self in
  output <-
    try_finally
      (assign_fast_cli false ;;;
       more <- call_send_command command_string expect_string
                 false false delay_factor ;;
       ret (output ++ more))
      (assign_fast_cli fast_cli_state) ;;
  if negb (contains commit_marker output)
  then raise (CommitFailedError
                ("Commit failed with the following errors:"
                   ++ nl ++ nl ++ output))
  else ret output.

(** [a_string.split(self.RESPONSE_RETURN)] raises on an empty
    separator. *)
Definition strip_context_items (self : Session Chan) (a_string : string)
  : result exn string :=
  match RESPONSE_RETURN self with
  | EmptyString =>
      Raise (Inherited (BuiltinError "ValueError" "empty separator"))
  | String _ _ =>
      let response_list := split (RESPONSE_RETURN self) a_string in
      let last_line := last_item response_list in
      if existsb (fun pattern => Re.search pattern last_line)
                 strings_to_strip
      then Ok (join (RESPONSE_RETURN self) (but_last response_list))
      else Ok a_string
  end.

End Methods.

Arguments check_config_mode {Chan}.
Arguments config_mode {Chan}.
Arguments call_send_command_timing {Chan}.
Arguments call_send_command {Chan}.
Arguments exit_config_mode {Chan}.
Arguments commit_delay_factor {Chan}.
Arguments commit_expect_string {Chan}.
Arguments commit {Chan}.
Arguments strip_context_items {Chan}.

End Juniper.

(** ** [netmiko/hp/hp_comware.py]: class [HPComwareBase] *)

Module HPComware.

Local Open Scope string_scope.

(** The methods [HPComwareBase] reaches in [CiscoSSHConnection] through
    [super()]. *)
Record CiscoSSHConnection (Chan : Type) : Type := mkCisco {
  cisco_config_mode :
    string -> string -> Z ->
    Session Chan -> result foreign_exception string * Session Chan;
  cisco_exit_config_mode :
    string -> string ->
    Session Chan -> result foreign_exception string * Session Chan;
  cisco_check_config_mode :
    string -> Session Chan -> result foreign_exception bool * Session Chan
}.
Arguments cisco_config_mode {Chan}.
Arguments cisco_exit_config_mode {Chan}.
Arguments cisco_check_config_mode {Chan}.

(** Default values of the keyword parameters, method by method. *)
Definition config_mode_config_command : string := "system-view".
Definition config_mode_pattern : string := "".
Definition config_mode_re_flags : Z := 0.
Definition exit_config_mode_exit_config : string := "return".
Definition exit_config_mode_pattern : string := ">".
Definition check_config_mode_check_string : string := "]".
Definition enable_cmd : string := "system-view".
Definition exit_enable_mode_exit_command : string := "return".
Definition check_enable_mode_check_string : string := "]".

Section Methods.

Variable Chan : Type.
Variable base : CiscoSSHConnection Chan.

Definition config_mode (config_command pattern : string) (re_flags : Z)
  : M Chan string :=
  call (fun _ => EvConfigMode config_command pattern re_flags)
       (cisco_config_mode base config_command pattern re_flags).

Definition exit_config_mode (exit_config pattern : string)
  : M Chan string :=
  call (fun _ => EvExitConfigMode exit_config pattern)
       (cisco_exit_config_mode base exit_config pattern).

Definition check_config_mode (check_string : string) : M Chan bool :=
  call (fun _ => EvCheckConfigMode check_string)
       (cisco_check_config_mode base check_string).

(** [enable] passes [cmd] on and leaves the other parameters of
    [config_mode] at their defaults; likewise for the two below. *)
Definition enable (cmd : string) : M Chan string :=
  config_mode cmd config_mode_pattern config_mode_re_flags.

Definition exit_enable_mode (exit_command : string) : M Chan string :=
  exit_config_mode exit_command exit_config_mode_pattern.

Definition check_enable_mode (check_string : string) : M Chan bool :=
  check_config_mode check_string.

End Methods.

Arguments config_mode {Chan}.
Arguments exit_config_mode {Chan}.
Arguments check_config_mode {Chan}.
Arguments enable {Chan}.
Arguments exit_enable_mode {Chan}.
Arguments check_enable_mode {Chan}.

End HPComware.

(** ** A scripted Junos device, for running the driver on concrete input *)

Module Sim.

Import PyStr.
Local Open Scope string_scope.

Record Device : Type := mkDevice {
  in_config : bool;          (* the CLI is at the [edit] prompt *)
  uncommitted : bool;        (* the candidate differs from the active config *)
  asked : bool;              (* the exit confirmation question is pending *)
  accepts : bool;            (* a commit will pass the device's checks *)
  wedged : bool;             (* the CLI ignores requests to leave [edit] *)
  stalls : bool;             (* a commit outlasts the read timeout *)
  link_up : bool             (* reads from the channel still return *)
}.

Definition S := Session Device.

Definition with_device (s : S) (d : Device) : S :=
  {| fast_cli := fast_cli s;
     legacy_mode := legacy_mode s;
     base_prompt := base_prompt s;
     RESPONSE_RETURN := RESPONSE_RETURN s;
     global_delay_factor := global_delay_factor s;
     channel := d |}.

(** The CLI position of the device: mode, dirty candidate, pending
    question. *)
Definition at_cli (d : Device) (cfg dirty question : bool) : Device :=
  {| in_config := cfg; uncommitted := dirty; asked := question;
     accepts := accepts d; wedged := wedged d; stalls := stalls d;
     link_up := link_up d |}.

Definition prompt (s : S) : string :=
  if in_config (channel s)
  then "[edit]" ++ nl ++ base_prompt s ++ "# "
  else base_prompt s ++ "> ".

Definition leave (d : Device) : Device :=
  if wedged d then at_cli d true (uncommitted d) false
  else at_cli d false (uncommitted d) false.

Definition sim_select_delay_factor (d : Q) (s : S) : Q :=
  if fast_cli s && negb (legacy_mode s)
  then (if Qle_bool d (global_delay_factor s) then d
        else global_delay_factor s)
  else (if Qle_bool d (global_delay_factor s) then global_delay_factor s
        else d).

Definition sim_check_config_mode (check_string : string) (s : S)
  : result foreign_exception bool * S :=
  if link_up (channel s)
  then (Ok (contains check_string (prompt s)), s)
  else (Raise ReadException, s).

Definition sim_config_mode (config_command pattern : string) (re_flags : Z)
    (s : S) : result foreign_exception string * S :=
  let d := channel s in
  if negb (link_up d) then (Raise NetmikoTimeoutException, s)
  else if in_config d then (Ok "", s)
  else
    let s' := with_device s (at_cli d true (uncommitted d) false) in
    (Ok (config_command ++ nl ++ "Entering configuration mode" ++ nl
           ++ nl ++ prompt s'), s').

Definition sim_send_command_timing (command_string : string)
    (strip_prompt strip_command : bool) (s : S)
  : result foreign_exception string * S :=
  let d := channel s in
  if negb (link_up d) then (Raise ReadException, s)
  else if asked d then
    let s' := with_device s
                (if String.eqb command_string "yes" then leave d
                 else at_cli d (in_config d) (uncommitted d) false) in
    (Ok (command_string ++ nl ++ prompt s'), s')
  else if in_config d && String.eqb command_string "exit configuration-mode"
  then
    if uncommitted d
    then (Ok (command_string ++ nl
                ++ "The configuration has been changed but not committed"
                ++ nl ++ "Exit with uncommitted changes? [yes,no] (yes) "),
          with_device s (at_cli d true true true))
    else
      let s' := with_device s (leave d) in
      (Ok (command_string ++ nl ++ "Exiting configuration mode" ++ nl
             ++ nl ++ prompt s'), s')
  else (Ok (command_string ++ nl ++ prompt s), s).

Definition sim_send_command (command_string : string)
    (expect_string : option string) (strip_prompt strip_command : bool)
    (delay_factor : Q) (s : S) : result foreign_exception string * S :=
  let d := channel s in
  if negb (link_up d) then (Raise NetmikoTimeoutException, s)
  else if stalls d then (Raise ReadException, s)
  else if negb (in_config d)
  then (Ok (command_string ++ nl ++ "unknown command." ++ nl ++ prompt s), s)
  else if negb (accepts d)
  then (Ok (command_string ++ nl
              ++ "error: configuration check-out failed" ++ nl ++ prompt s),
        s)
  else
    let verdict :=
      if contains "commit check" command_string
      then "configuration check succeeds"
      else if contains "commit confirmed" command_string
      then "commit confirmed will be automatically rolled back in 10 minutes unless confirmed"
             ++ nl ++ "commit complete"
      else "commit complete" in
    let d' :=
      if contains "commit check" command_string then d
      else if contains "and-quit" command_string
      then at_cli d false false false
      else at_cli d true false false in
    let s' := with_device s d' in
    (Ok (command_string ++ nl ++ verdict ++ nl ++ nl ++ prompt s'), s').

Definition junos : Juniper.BaseConnection Device :=
  Juniper.mkBase Device sim_select_delay_factor sim_check_config_mode
    sim_config_mode sim_send_command_timing sim_send_command.

(** [re.escape] as of Python 3.7: a backslash goes before each of
    [( ) [ ] { } ? * + - | ^ $ \ . & ~ #] and before white space (space,
    tab, newline, carriage return, vertical tab, form feed); every other
    character stays as it is. *)
Definition is_special (c : ascii) : bool :=
  existsb (Nat.eqb (nat_of_ascii c))
    [40; 41; 91; 93; 123; 125; 63; 42; 43; 45; 124; 94; 36; 92; 46; 38;
     126; 35; 32; 9; 10; 13; 11; 12]%nat.

Fixpoint re_escape (s : string) : string :=
  match s with
  | EmptyString => EmptyString
  | String c s' =>
      if is_special c then String "\"%char (String c (re_escape s'))
      else String c (re_escape s')
  end.

Definition fresh (fast : bool) (d : Device) : World Device :=
  mkWorld (mkSession fast false "root@vmx" nl 1%Q d) [].

Definition operational : Device :=
  mkDevice false false false true false false true.
Definition editing : Device :=
  mkDevice true true false true false false true.
Definition editing_clean : Device :=
  mkDevice true false false true false false true.
Definition rejecting : Device :=
  mkDevice false true false false false false true.
Definition stuck : Device :=
  mkDevice true true false true true false true.
Definition stalling : Device :=
  mkDevice false true false true false true true.
Definition unplugged : Device :=
  mkDevice true true false true false false false.

End Sim.

(** ** The design document's vocabulary, for comparison with the code *)

Module Design.

Import PyStr.
Local Open Scope string_scope.

(** A Commit Request carries an optional positive [confirm_delay]. *)
Definition delay_well_formed (confirm_delay : option Z) : Prop :=
  forall n, confirm_delay = Some n -> (0 < n)%Z.

Definition supplied (confirm_delay : option Z) : Prop :=
  confirm_delay <> None.

Definition has_double_quote (comment : string) : Prop :=
  exists before after, comment = before ++ String DQUOTE after.

(** The three illegal argument combinations of section 4.4. *)
Definition invalid_arguments (confirm : bool) (confirm_delay : option Z)
    (check : bool) (comment : string) : Prop :=
  (check = true /\
     (confirm = true \/ supplied confirm_delay \/ comment <> ""))
  \/ (supplied confirm_delay /\ confirm = false)
  \/ has_double_quote comment.

(** The command selection table of section 4.4, first match wins. *)
Definition table_command (confirm : bool) (confirm_delay : option Z)
    (check : bool) : string :=
  if check then "commit check"
  else match confirm, confirm_delay with
       | true, Some delay => "commit confirmed " ++ str_int delay
       | true, None => "commit confirmed"
       | false, _ => "commit"
       end.

Definition table_marker (confirm check : bool) : string :=
  if check then "configuration check succeeds"
  else if confirm
  then "commit confirmed will be automatically rolled back in"
  else "commit complete".

Definition comment_suffix (comment : string) : string :=
  match comment with
  | EmptyString => ""
  | _ => " comment " ++ String DQUOTE (comment ++ String DQUOTE "")
  end.

Definition quit_suffix (and_quit : bool) : string :=
  if and_quit then " and-quit" else "".

Definition full_command (confirm : bool) (confirm_delay : option Z)
    (check : bool) (comment : string) (and_quit : bool) : string :=
  (table_command confirm confirm_delay check ++ comment_suffix comment)
    ++ quit_suffix and_quit.

(** A line shows the annotation [opening ... closing] when the two
    delimiters occur in that order with no line break between them. *)
Definition shows (opening : string) (closing : ascii) (line : string)
  : Prop :=
  exists before inside after,
    line = before ++ opening ++ inside ++ String closing after
    /\ has_char LF inside = false.

Definition annotation (line : string) : Prop :=
  shows "[edit" "]"%char line \/ shows "{master:" "}"%char line
  \/ shows "{backup:" "}"%char line \/ shows "{line" "}"%char line
  \/ shows "{primary" "}"%char line \/ shows "{secondary" "}"%char line.

(** The two failures the driver reports after talking to the device. *)
Definition commit_failure (output : string) : exn :=
  CommitFailedError
    ("Commit failed with the following errors:" ++ nl ++ nl ++ output).

Definition mode_failure : exn :=
  ModeTransitionError "Failed to exit configuration mode".

(** Events of [commit] that are calls of [send_command] made while
    [fast_cli] was still set. *)
Definition sent_in_fast_mode (e : event) : bool :=
  match e with
  | EvSendCommand _ _ _ _ _ seen => seen
  | _ => false
  end.

End Design.

(** ** More of Python's [str]: [strip] and slices *)

Module PyText.

Local Open Scope string_scope.

Definition CR : ascii := "013"%char.

(** [c.isspace()] for a code point below 256. *)
Definition is_space (c : ascii) : bool :=
  let n := nat_of_ascii c in
  ((9 <=? n) && (n <=? 13) || (28 <=? n) && (n <=? 32)
   || (n =? 133) || (n =? 160))%nat.

Fixpoint all_space (s : string) : bool :=
  match s with
  | EmptyString => true
  | String c s' => is_space c && all_space s'
  end.

(** [s.lstrip()], [s.rstrip()], [s.strip()] *)
Fixpoint lstrip (s : string) : string :=
  match s with
  | EmptyString => EmptyString
  | String c s' => if is_space c then lstrip s' else s
  end.

Fixpoint rstrip (s : string) : string :=
  match s with
  | EmptyString => EmptyString
  | String c s' =>
      match rstrip s' with
      | EmptyString => if is_space c then EmptyString
                       else String c EmptyString
      | String d r => String c (String d r)
      end
  end.

Definition strip (s : string) : string := rstrip (lstrip s).

(** [s[1:]] *)
Definition from_1 (s : string) : string :=
  match s with
  | EmptyString => EmptyString
  | String _ s' => s'
  end.

(** The first and the last character, when there is one. *)
Definition first_char (s : string) : option ascii :=
  match s with
  | EmptyString => None
  | String c _ => Some c
  end.

Fixpoint last_char (s : string) : option ascii :=
  match s with
  | EmptyString => None
  | String c EmptyString => Some c
  | String _ s' => last_char s'
  end.

(** How often a character occurs. *)
Fixpoint count_char (c : ascii) (s : string) : nat :=
  match s with
  | EmptyString => O
  | String a s' => (if Ascii.eqb c a then 1 else 0) + count_char c s'
  end.

End PyText.

(** ** The channel underneath the session *)

(** Calls that reach the transport, or a whole inherited method of the
    session-priming sequence, with the arguments passed. *)
Inductive io_event : Type :=
| IoWrite (out_data : string)
| IoRead (data : string)          (* a read, with what it returned *)
| IoReadFailed                    (* a read that raised *)
| IoClearBuffer
| IoSleep (seconds : Q)
| IoTestChannelRead (pattern : string)
| IoSetBasePrompt (pri_prompt_terminator alt_prompt_terminator : string)
    (delay_factor : Q)
| IoDisablePaging (command : string).

Fixpoint writes (l : list io_event) : list string :=
  match l with
  | [] => []
  | IoWrite d :: l' => d :: writes l'
  | _ :: l' => writes l'
  end.

(** The texts read in a log, in order. *)
Fixpoint texts_read (l : list io_event) : list string :=
  match l with
  | [] => []
  | IoRead d :: l' => d :: texts_read l'
  | _ :: l' => texts_read l'
  end.

(** [time.sleep] calls in a log, in order. *)
Fixpoint sleeps (l : list io_event) : list Q :=
  match l with
  | [] => []
  | IoSleep q :: l' => q :: sleeps l'
  | _ :: l' => sleeps l'
  end.

Definition total (qs : list Q) : Q := fold_right Qplus 0%Q qs.

Section Wiring.

Variable Chan : Type.

(** The driver world, the log of channel calls, and the attribute
    [self._session_log_fin]. *)
Record Wire : Type := mkWire {
  inner : World Chan;
  io_log : list io_event;
  session_log_fin : bool
}.

Definition IO (A : Type) : Type := Wire -> result exn A * Wire.

Definition io_ret {A} (a : A) : IO A := fun w => (Ok a, w).

Definition io_bind {A B} (c : IO A) (k : A -> IO B) : IO B :=
  fun w =>
    match c w with
    | (Ok a, w') => k a w'
    | (Raise e, w') => (Raise e, w')
    end.

Definition io_session : IO (Session Chan) :=
  fun w => (Ok (session (inner w)), w).

(** A driver method run underneath: it sees and changes the driver
    world only. *)
Definition lift_M {A} (c : M Chan A) : IO A :=
  fun w =>
    match c (inner w) with
    | (r, v) =>
        (r, {| inner := v; io_log := io_log w;
               session_log_fin := session_log_fin w |})
    end.

(** A call into the transport or into an inherited priming method. *)
Definition io_call {A} (ev : io_event)
    (op : Session Chan -> result foreign_exception A * Session Chan)
  : IO A :=
  fun w =>
    match op (session (inner w)) with
    | (r, s') =>
        (match r with Ok a => Ok a | Raise e => Raise (Inherited e) end,
         {| inner := {| session := s'; trace := trace (inner w) |};
            io_log := io_log w ++ [ev];
            session_log_fin := session_log_fin w |})
    end.

Definition sleep_failure : exn :=
  Inherited (BuiltinError "ValueError" "sleep length must be non-negative").

(** [time.sleep(seconds)]: a negative length is a [ValueError], and
    then no time is spent. *)
Definition sleep (seconds : Q) : IO unit :=
  fun w =>
    if Qle_bool 0 seconds
    then (Ok tt, {| inner := inner w;
                    io_log := io_log w ++ [IoSleep seconds];
                    session_log_fin := session_log_fin w |})
    else (Raise sleep_failure, w).

(** [try: body except Exception: pass] *)
Definition try_except_pass (body : IO unit) : IO unit :=
  fun w =>
    match body w with
    | (Ok _, w') => (Ok tt, w')
    | (Raise _, w') => (Ok tt, w')
    end.

Definition assign_session_log_fin (b : bool) : IO unit :=
  fun w =>
    (Ok tt, {| inner := inner w; io_log := io_log w;
               session_log_fin := b |}).

Definition set_base_prompt_attr (p : string) (s : Session Chan)
  : Session Chan :=
  {| fast_cli := fast_cli s;
     legacy_mode := legacy_mode s;
     base_prompt := p;
     RESPONSE_RETURN := RESPONSE_RETURN s;
     global_delay_factor := global_delay_factor s;
     channel := channel s |}.

Definition assign_base_prompt (p : string) : IO unit :=
  fun w =>
    (Ok tt, {| inner := {| session := set_base_prompt_attr p
                                        (session (inner w));
                           trace := trace (inner w) |};
               io_log := io_log w;
               session_log_fin := session_log_fin w |}).

End Wiring.

Arguments mkWire {Chan}.
Arguments inner {Chan}.
Arguments io_log {Chan}.
Arguments session_log_fin {Chan}.
Arguments io_ret {Chan A}.
Arguments io_bind {Chan A B}.
Arguments io_session {Chan}.
Arguments lift_M {Chan A}.
Arguments io_call {Chan A}.
Arguments sleep {Chan}.
Arguments try_except_pass {Chan}.
Arguments assign_session_log_fin {Chan}.
Arguments set_base_prompt_attr {Chan}.
Arguments assign_base_prompt {Chan}.

Declare Scope io_scope.
Delimit Scope io_scope with io.
Notation "x <- c ;; k" := (io_bind c (fun x => k))
  (at level 61, c at next level, right associativity) : io_scope.
Notation "c ;;; k" := (io_bind c (fun _ => k))
  (at level 61, right associativity) : io_scope.

(** ** [netmiko/juniper/juniper.py]: entering the CLI, clean-up, prompt
    stripping *)

Module JuniperSession.

Import PyStr PyText.
Local Open Scope string_scope.
Local Open Scope io_scope.

(** Further methods [JuniperBase] inherits from [BaseConnection]. *)
Record Transport (Chan : Type) : Type := mkTransport {
  write_channel :
    string -> Session Chan -> result foreign_exception unit * Session Chan;
  read_channel :
    Session Chan -> result foreign_exception string * Session Chan;
  clear_buffer :
    Session Chan -> result foreign_exception string * Session Chan;
  base_strip_prompt :
    string -> Session Chan -> result foreign_exception string
}.
Arguments write_channel {Chan}.
Arguments read_channel {Chan}.
Arguments clear_buffer {Chan}.
Arguments base_strip_prompt {Chan}.

(** [re.search(r"root@", cur_prompt) or
     re.search(r"^%$", cur_prompt.strip())]: without [re.MULTILINE],
    [^] is the start of the string and [$] its end or the place before a
    final newline. *)
Definition shell_prompt (cur_prompt : string) : bool :=
  Re.search (Re.lit "root@") cur_prompt
  || Re.fullmatch
       (Re.Cat (Re.Chr "%"%char) (Re.Alt Re.Eps (Re.Chr LF)))
       (strip cur_prompt).

(** [">" in cur_prompt or "#" in cur_prompt] *)
Definition cli_prompt (cur_prompt : string) : bool :=
  contains ">" cur_prompt || contains "#" cur_prompt.

(** Positional and keyword parameters of
    [check_config_mode(self, check_string="]")]. *)
Definition check_config_mode_parameters : list string := ["check_string"].

Section Methods.

Variable Chan : Type.
Variable base : Juniper.BaseConnection Chan.
Variable transport : Transport Chan.
(** [self.RETURN] *)
Variable RETURN : string.

Definition call_write_channel (out_data : string) : IO Chan unit :=
  io_call (IoWrite out_data) (write_channel transport out_data).

Definition call_read_channel : IO Chan string :=
  fun w =>
    match read_channel transport (session (inner w)) with
    | (Ok data, s') =>
        (Ok data,
         {| inner := {| session := s'; trace := trace (inner w) |};
            io_log := io_log w ++ [IoRead data];
            session_log_fin := session_log_fin w |})
    | (Raise e, s') =>
        (Raise (Inherited e),
         {| inner := {| session := s'; trace := trace (inner w) |};
            io_log := io_log w ++ [IoReadFailed];
            session_log_fin := session_log_fin w |})
    end.

Definition call_clear_buffer : IO Chan string :=
  io_call IoClearBuffer (clear_buffer transport).

(** The [while count < 50] loop of [enter_cli_mode]; [remaining] is
    [50 - count]. *)
Fixpoint enter_cli_loop (remaining : nat) (delay_factor : Q)
  : IO Chan unit :=
  match remaining with
  | O => io_ret tt
  | S remaining' =>
      call_write_channel RETURN ;;;
      sleep ((1 # 10) * delay_factor) ;;;
      cur_prompt <- call_read_channel ;;
      if shell_prompt cur_prompt then
        call_write_channel ("cli" ++ RETURN) ;;;
        sleep ((3 # 10) * delay_factor) ;;;
        call_clear_buffer ;;;
        io_ret tt
      else if cli_prompt cur_prompt then io_ret tt
      else enter_cli_loop remaining' delay_factor
  end.

Definition enter_cli_mode : IO Chan unit :=
  self <- io_session ;;
  let delay_factor := Juniper.select_delay_factor base 0 self in
  enter_cli_loop 50 delay_factor.

(** A call of [self.check_config_mode] with keyword arguments: a keyword
    that is not a parameter of the method is a [TypeError]. *)
Definition check_config_mode_keywords (kwargs : list (string * string))
  : M Chan bool :=
  match
    find (fun kv =>
            negb (existsb (String.eqb (fst kv)) check_config_mode_parameters))
         kwargs
  with
  | Some (keyword, _) =>
      raise (Inherited
               (BuiltinError "TypeError"
                  ("check_config_mode() got an unexpected keyword argument '"
                     ++ keyword ++ "'")))
  | None =>
      Juniper.check_config_mode base
        (match find (fun kv => String.eqb (fst kv) "check_string") kwargs with
         | Some (_, check_string) => check_string
         | None => "]"
         end)
  end.

Definition cleanup (command : string) : IO Chan unit :=
  try_except_pass
    (in_config <- lift_M (check_config_mode_keywords [("pattern", "")]) ;;
     if in_config : bool
     then lift_M (Juniper.exit_config_mode base "exit configuration-mode")
          ;;; io_ret tt
     else io_ret tt) ;;;
  assign_session_log_fin true ;;;
  call_write_channel (command ++ RETURN).

Definition strip_prompt (self : Session Chan) (a_string : string)
  : result exn string :=
  match base_strip_prompt transport a_string self with
  | Raise e => Raise (Inherited e)
  | Ok a_string => Juniper.strip_context_items self a_string
  end.

End Methods.

Arguments call_write_channel {Chan}.
Arguments call_read_channel {Chan}.
Arguments call_clear_buffer {Chan}.
Arguments enter_cli_loop {Chan}.
Arguments enter_cli_mode {Chan}.
Arguments check_config_mode_keywords {Chan}.
Arguments cleanup {Chan}.
Arguments strip_prompt {Chan}.

End JuniperSession.

(** ** [netmiko/hp/hp_comware.py]: session preparation and the base
    prompt *)

Module ComwareSession.

Import PyStr PyText.
Local Open Scope string_scope.
Local Open Scope io_scope.

(** Further methods [HPComwareBase] inherits. *)
Record Transport (Chan : Type) : Type := mkTransport {
  select_delay_factor : Q -> Session Chan -> Q;
  write_channel :
    string -> Session Chan -> result foreign_exception unit * Session Chan;
  clear_buffer :
    Session Chan -> result foreign_exception string * Session Chan;
  test_channel_read :
    string -> Session Chan -> result foreign_exception string * Session Chan;
  cisco_set_base_prompt :
    string -> string -> Q ->
    Session Chan -> result foreign_exception string * Session Chan;
  disable_paging :
    string -> Session Chan -> result foreign_exception string * Session Chan
}.
Arguments select_delay_factor {Chan}.
Arguments write_channel {Chan}.
Arguments clear_buffer {Chan}.
Arguments test_channel_read {Chan}.
Arguments cisco_set_base_prompt {Chan}.
Arguments disable_paging {Chan}.

Section Methods.

Variable Chan : Type.
Variable transport : Transport Chan.
(** [self.RETURN] *)
Variable RETURN : string.

Definition set_base_prompt (pri_prompt_terminator alt_prompt_terminator
                              : string) (delay_factor : Q)
  : IO Chan string :=
  prompt <- io_call
              (IoSetBasePrompt pri_prompt_terminator alt_prompt_terminator
                 delay_factor)
              (cisco_set_base_prompt transport pri_prompt_terminator
                 alt_prompt_terminator delay_factor) ;;
  let prompt := from_1 prompt in
  let prompt := strip prompt in
  assign_base_prompt prompt ;;;
  self <- io_session ;;
  io_ret (base_prompt self).

(** The [while i <= 4] loop of [session_preparation]; [remaining] is
    [5 - i]. *)
Fixpoint absorb_banner (remaining : nat) (delay_factor : Q) : IO Chan unit :=
  match remaining with
  | O => io_ret tt
  | S remaining' =>
      sleep ((1 # 2) * delay_factor) ;;;
      io_call (IoWrite nl) (write_channel transport nl) ;;;
      absorb_banner remaining' delay_factor
  end.

Definition session_preparation : IO Chan unit :=
  self <- io_session ;;
  let delay_factor := select_delay_factor transport 0 self in
  absorb_banner 4 delay_factor ;;;
  sleep ((3 # 10) * delay_factor) ;;;
  io_call IoClearBuffer (clear_buffer transport) ;;;
  io_call (IoTestChannelRead "[>\]]")
    (test_channel_read transport "[>\]]") ;;;
  set_base_prompt ">" "]" 1 ;;;
  let command := RETURN ++ "screen-length disable" in
  io_call (IoDisablePaging command) (disable_paging transport command) ;;;
  self <- io_session ;;
  sleep ((3 # 10) * global_delay_factor self) ;;;
  io_call IoClearBuffer (clear_buffer transport) ;;;
  io_ret tt.

End Methods.

Arguments set_base_prompt {Chan}.
Arguments absorb_banner {Chan}.
Arguments session_preparation {Chan}.

(** The inherited calls of [session_preparation] that leave
    [self.global_delay_factor] as it is. *)
Definition keeps_global_delay_factor {Chan : Type}
    (transport : Transport Chan) : Prop :=
  (forall out_data s,
      global_delay_factor (snd (write_channel transport out_data s))
      = global_delay_factor s)
  /\ (forall s,
        global_delay_factor (snd (clear_buffer transport s))
        = global_delay_factor s)
  /\ (forall pattern s,
        global_delay_factor (snd (test_channel_read transport pattern s))
        = global_delay_factor s)
  /\ (forall pri alt delay_factor s,
        global_delay_factor
          (snd (cisco_set_base_prompt transport pri alt delay_factor s))
        = global_delay_factor s)
  /\ (forall command s,
        global_delay_factor (snd (disable_paging transport command s))
        = global_delay_factor s).

End ComwareSession.

(** ** Constructors: the keyword arguments handed up the class chain *)

Module Constructors.

Local Open Scope string_scope.

Inductive pyval : Type :=
| PyNone
| PyBool (b : bool)
| PyStr (s : string)
| PyInt (n : Z)
| PyObject (id : nat).

(** A [dict] with [str] keys, in insertion order. *)
Definition dict : Type := list (string * pyval).

Fixpoint lookup (key : string) (d : dict) : option pyval :=
  match d with
  | [] => None
  | (k, v) :: d' => if String.eqb k key then Some v else lookup key d'
  end.

(** [d.get(key)] *)
Definition get (key : string) (d : dict) : pyval :=
  match lookup key d with
  | Some v => v
  | None => PyNone
  end.

(** [d[key] = value] *)
Fixpoint store (key : string) (value : pyval) (d : dict) : dict :=
  match d with
  | [] => [(key, value)]
  | (k, v) :: d' =>
      if String.eqb k key then (k, value) :: d'
      else (k, v) :: store key value d'
  end.

(** [d.setdefault(key, value)], for its effect on [d]. *)
Definition setdefault (key : string) (value : pyval) (d : dict) : dict :=
  match lookup key d with
  | Some _ => d
  | None => store key value d
  end.

Definition is_none (v : pyval) : bool :=
  match v with
  | PyNone => true
  | _ => false
  end.

Definition CRLF : string :=
  String PyText.CR (String PyStr.LF EmptyString).

(** Each constructor is given as the arguments it passes to the next
    [__init__] up the chain. *)

(** [JuniperBase.__init__(self, *args, **kwargs)] *)
Definition JuniperBase_init (args : list pyval) (kwargs : dict)
  : result exn (list pyval * dict) :=
  let kwargs := setdefault "fast_cli" (PyBool true) kwargs in
  let kwargs := setdefault "_legacy_mode" (PyBool false) kwargs in
  Ok (args, kwargs).

(** [JuniperTelnet.__init__(self, *args, **kwargs)] *)
Definition JuniperTelnet_init (args : list pyval) (kwargs : dict)
  : result exn (list pyval * dict) :=
  let default_enter := get "default_enter" kwargs in
  let kwargs :=
    store "default_enter"
      (if is_none default_enter then PyStr CRLF else default_enter) kwargs in
  JuniperBase_init args kwargs.

(** [HPComwareBase.__init__(self, **kwargs)]: no positional parameter
    besides [self]. *)
Definition HPComwareBase_init (args : list pyval) (kwargs : dict)
  : result exn (list pyval * dict) :=
  match args with
  | _ :: _ =>
      Raise (Inherited
               (BuiltinError "TypeError"
                  "__init__() takes 1 positional argument but more were given"))
  | [] =>
      let global_cmd_verify := get "global_cmd_verify" kwargs in
      let kwargs :=
        if is_none global_cmd_verify
        then store "global_cmd_verify" (PyBool false) kwargs
        else kwargs in
      Ok ([], kwargs)
  end.

(** [HPComwareTelnet.__init__(self, *args, **kwargs)] *)
Definition HPComwareTelnet_init (args : list pyval) (kwargs : dict)
  : result exn (list pyval * dict) :=
  let default_enter := get "default_enter" kwargs in
  let kwargs :=
    store "default_enter"
      (if is_none default_enter then PyStr CRLF else default_enter) kwargs in
  HPComwareBase_init args kwargs.

End Constructors.

(** ** Scripted transports, for running the session methods *)

Module SimWire.

Import PyStr.
Local Open Scope string_scope.

(** The texts the device will hand out, read by read. *)
Definition Script : Type := list string.

Definition with_script (s : Session Script) (l : Script) : Session Script :=
  {| fast_cli := fast_cli s;
     legacy_mode := legacy_mode s;
     base_prompt := base_prompt s;
     RESPONSE_RETURN := RESPONSE_RETURN s;
     global_delay_factor := global_delay_factor s;
     channel := l |}.


Definition scripted : JuniperSession.Transport Script :=
  JuniperSession.mkTransport Script
    (fun _ s => (Ok tt, s))
    (fun s => (Ok (hd "" (channel s)), with_script s (tl (channel s))))
    (fun s => (Ok "", s))
    (fun a_string s =>
       Ok (join (RESPONSE_RETURN s)
             (but_last (split (RESPONSE_RETURN s) a_string)))).


Definition start (l : Script) : Wire Script :=
  mkWire (mkWorld (mkSession true false "" nl 1%Q l) []) [] false.

(** A Comware switch that answers every call at once. *)
Definition comware : ComwareSession.Transport unit :=
  ComwareSession.mkTransport unit
    (fun d s => if Qle_bool d (global_delay_factor s)
                then global_delay_factor s else d)
    (fun _ s => (Ok tt, s))
    (fun s => (Ok "", s))
    (fun _ s => (Ok "<HP5500>", s))
    (fun _ _ _ s =>
       (Ok "<HP5500", set_base_prompt_attr "<HP5500" s))
    (fun _ s => (Ok "", s)).

Definition comware_start : Wire unit :=
  mkWire (mkWorld (mkSession false false "" nl 2%Q tt) []) [] false.

End SimWire.

(** * Properties *)

(** ** Strings *)

Section StringFacts.

Import PyStr.
Local Open Scope string_scope.

Lemma append_empty_r (s : string) : s ++ "" = s.
Proof. induction s as [|c s IH]; simpl; [reflexivity | now rewrite IH]. Qed.

Lemma append_associative (a b c : string) : (a ++ b) ++ c = a ++ (b ++ c).
Proof. induction a as [|x a IH]; simpl; [reflexivity | now rewrite IH]. Qed.

Lemma length_append (a b : string) :
  String.length (a ++ b) = (String.length a + String.length b)%nat.
Proof. induction a as [|x a IH]; simpl; [reflexivity | now rewrite IH]. Qed.

Lemma drop_prefix_spec (p s rest : string) :
  drop_prefix p s = Some rest <-> s = p ++ rest.
Proof.
  revert s; induction p as [|a p IH]; intros s; simpl.
  - split; [now intros [= ->] | now intros ->].
  - destruct s as [|b s]; [split; discriminate|].
    destruct (Ascii.eqb_spec a b) as [->|Hne].
    + rewrite IH. split; [now intros -> | now intros [= ->]].
    + split; [discriminate | intros [= E _]; now elim Hne].
Qed.

Lemma drop_prefix_append (p rest : string) :
  drop_prefix p (p ++ rest) = Some rest.
Proof. now apply drop_prefix_spec. Qed.

(** What [cut] returns really is a decomposition of the string. *)
Lemma cut_sound (sep s b a : string) :
  cut sep s = Some (b, a) -> s = b ++ sep ++ a.
Proof.
  revert b a; induction s as [|c s IH]; intros b a; simpl.
  - destruct (drop_prefix sep "") as [rest|] eqn:E; [|discriminate].
    intros [= <- <-]. now apply drop_prefix_spec in E.
  - destruct (drop_prefix sep (String c s)) as [rest|] eqn:E.
    + intros [= <- <-]. now apply drop_prefix_spec in E.
    + destruct (cut sep s) as [[b' a']|]; [|discriminate].
      intros [= <- <-]. simpl. now rewrite (IH b' a' eq_refl).
Qed.

Lemma cut_unfold (sep s : string) :
  cut sep s =
  match drop_prefix sep s with
  | Some rest => Some ("", rest)
  | None =>
      match s with
      | "" => None
      | String c s' =>
          match cut sep s' with
          | Some (b, a) => Some (String c b, a)
          | None => None
          end
      end
  end.
Proof. destruct s; reflexivity. Qed.

(** [cut] finds an occurrence whenever there is one, and the leftmost. *)
Lemma cut_complete (sep x y : string) :
  exists b a, cut sep (x ++ sep ++ y) = Some (b, a)
              /\ (String.length b <= String.length x)%nat.
Proof.
  induction x as [|c x (b & a & IH & Hlen)].
  - exists "", y. simpl. rewrite cut_unfold, drop_prefix_append. auto.
  - simpl. destruct (drop_prefix sep (String c (x ++ sep ++ y))) as [r|].
    + exists "", r. split; [reflexivity | simpl; lia].
    + rewrite IH. exists (String c b), a. split; [reflexivity | simpl; lia].
Qed.

Lemma contains_spec (sub s : string) :
  contains sub s = true <-> exists a b, s = a ++ sub ++ b.
Proof.
  unfold contains. split.
  - destruct (cut sub s) as [[b a]|] eqn:E; [|discriminate].
    intros _. exists b, a. now apply cut_sound.
  - intros (a & b & ->).
    destruct (cut_complete sub a b) as (b' & a' & -> & _). reflexivity.
Qed.

Lemma has_char_spec (c : ascii) (s : string) :
  has_char c s = true <-> exists a b, s = a ++ String c b.
Proof.
  induction s as [|x s IH]; simpl.
  - split; [discriminate | intros ([|? ?] & b & E); discriminate].
  - rewrite orb_true_iff, IH. split.
    + intros [E | (a & b & ->)].
      * apply Ascii.eqb_eq in E as ->. now exists "", s.
      * now exists (String x a), b.
    + intros ([|y a] & b & E); simpl in E; injection E as -> ->.
      * left. apply Ascii.eqb_refl.
      * right. now exists a, b.
Qed.

Lemma truthy_spec (s : string) : truthy s = true <-> s <> "".
Proof. destruct s; simpl; split; congruence. Qed.

End StringFacts.

(** ** [split] and [join] *)

Section SplitFacts.

Import PyStr.
Local Open Scope string_scope.

Variable sep : string.
Hypothesis sep_nonempty : sep <> "".

Lemma sep_length : (1 <= String.length sep)%nat.
Proof using sep_nonempty.
  destruct sep; [now elim sep_nonempty | simpl; lia].
Qed.

Lemma cut_shrinks (s b a : string) :
  cut sep s = Some (b, a) -> (String.length a < String.length s)%nat.
Proof using sep_nonempty.
  intros E. apply cut_sound in E. subst s.
  rewrite !length_append. pose proof sep_length. lia.
Qed.

(** The piece before the cut holds no separator: the cut is leftmost. *)
Lemma cut_before_clean (s b a : string) :
  cut sep s = Some (b, a) -> cut sep b = None.
Proof using sep_nonempty.
  intros E. destruct (cut sep b) as [[b1 a1]|] eqn:Eb; [|reflexivity].
  exfalso. pose proof (cut_sound _ _ _ _ E) as Hs.
  pose proof (cut_sound _ _ _ _ Eb) as Hb.
  destruct (cut_complete sep b1 (a1 ++ sep ++ a)) as (b' & a' & E' & Hlen).
  assert (Heq : b1 ++ sep ++ a1 ++ sep ++ a = s).
  { rewrite Hs, Hb. now rewrite !append_associative. }
  rewrite Heq, E in E'. injection E' as <- <-.
  rewrite Hb in Hlen. rewrite !length_append in Hlen.
  pose proof sep_length. lia.
Qed.

Lemma drop_prefix_none_stable (p x a a' : string) :
  (String.length p <= String.length x)%nat ->
  drop_prefix p (x ++ a) = None -> drop_prefix p (x ++ a') = None.
Proof.
  revert x; induction p as [|c p IH]; intros x Hlen; simpl.
  - discriminate.
  - destruct x as [|d x]; simpl in *; [lia|].
    destruct (Ascii.eqb c d); [apply IH; lia | reflexivity].
Qed.

(** Where the first cut falls does not depend on what follows it. *)
Lemma cut_stable (b a a' : string) :
  cut sep (b ++ sep ++ a) = Some (b, a) ->
  cut sep (b ++ sep ++ a') = Some (b, a').
Proof using sep_nonempty.
  induction b as [|c b IH]; simpl.
  - intros _. now rewrite cut_unfold, drop_prefix_append.
  - destruct (drop_prefix sep (String c (b ++ sep ++ a))) as [r|] eqn:D;
      [discriminate|].
    destruct (cut sep (b ++ sep ++ a)) as [[b0 a0]|] eqn:E; [|discriminate].
    intros [= -> ->].
    replace (String c (b ++ sep ++ a')) with (String c (b ++ sep) ++ a')
      by (simpl; now rewrite append_associative).
    rewrite (drop_prefix_none_stable sep (String c (b ++ sep)) a a').
    + simpl. now rewrite (IH eq_refl).
    + simpl. rewrite length_append. lia.
    + simpl. now rewrite append_associative.
Qed.

Lemma split_fuel_nonempty (n : nat) (s : string) : split_fuel n sep s <> [].
Proof.
  destruct n; simpl; [discriminate|].
  destruct (cut sep s) as [[b a]|]; discriminate.
Qed.

Lemma join_cons (x : string) (l : list string) :
  l <> [] -> join sep (x :: l) = x ++ sep ++ join sep l.
Proof. destruct l; [congruence | reflexivity]. Qed.

(** Joining the pieces gives the string back. *)
Lemma join_split_fuel (n : nat) (s : string) :
  join sep (split_fuel n sep s) = s.
Proof.
  revert s; induction n as [|n IH]; intros s; simpl; [reflexivity|].
  destruct (cut sep s) as [[b a]|] eqn:E; [|reflexivity].
  rewrite join_cons by apply split_fuel_nonempty.
  rewrite IH. symmetry. now apply cut_sound.
Qed.

Lemma join_split (s : string) : join sep (split sep s) = s.
Proof. apply join_split_fuel. Qed.

(** With [length s] rounds the counter never cuts the work short. *)
Lemma split_fuel_Pieces (n : nat) (s : string) :
  (String.length s <= n)%nat -> Pieces sep s (split_fuel n sep s).
Proof using sep_nonempty.
  revert s; induction n as [|n IH]; intros s Hn; simpl.
  - constructor. destruct s; [|simpl in Hn; lia].
    rewrite cut_unfold. destruct sep; [now elim sep_nonempty | reflexivity].
  - destruct (cut sep s) as [[b a]|] eqn:E.
    + econstructor; [eassumption|]. apply IH.
      pose proof (cut_shrinks _ _ _ E). lia.
    + now constructor.
Qed.

Lemma split_Pieces (s : string) : Pieces sep s (split sep s).
Proof using sep_nonempty. now apply split_fuel_Pieces. Qed.

Lemma Pieces_functional (s : string) (l l' : list string) :
  Pieces sep s l -> Pieces sep s l' -> l = l'.
Proof.
  intros H; revert l'; induction H as [s E | s b a l E H IH];
    intros l' H'; inversion H'; subst; try congruence.
  assert (b0 = b /\ a0 = a) as [-> ->] by (split; congruence).
  f_equal. now apply IH.
Qed.

Lemma Pieces_split (s : string) (l : list string) :
  Pieces sep s l -> split sep s = l.
Proof using sep_nonempty.
  intros H. eapply Pieces_functional; [apply split_Pieces | exact H].
Qed.

Lemma Pieces_nonempty (s : string) (l : list string) :
  Pieces sep s l -> l <> [].
Proof. destruct 1; discriminate. Qed.

(** No piece contains the separator. *)
Lemma Pieces_clean (s : string) (l : list string) :
  Pieces sep s l -> Forall (fun x => contains sep x = false) l.
Proof using sep_nonempty.
  induction 1 as [s E | s b a l E H IH].
  - constructor; [|constructor]. unfold contains. now rewrite E.
  - constructor; [|exact IH]. unfold contains.
    now rewrite (cut_before_clean _ _ _ E).
Qed.

(** Dropping the last piece and joining again leaves the other pieces
    as they were. *)
Lemma Pieces_but_last (s : string) (l : list string) :
  Pieces sep s l -> but_last l <> [] ->
  Pieces sep (join sep (but_last l)) (but_last l).
Proof using sep_nonempty.
  unfold but_last.
  induction 1 as [s E | s b a l E H IH]; simpl; [congruence|].
  pose proof (Pieces_nonempty _ _ H) as Hl.
  destruct l as [|x l]; [congruence|]. intros _.
  destruct (removelast (x :: l)) as [|y l'] eqn:R.
  - simpl. constructor. eapply cut_before_clean; eassumption.
  - rewrite join_cons by discriminate.
    econstructor; [|apply IH; discriminate].
    apply cut_stable with (a := a).
    now rewrite <- (cut_sound _ _ _ _ E).
Qed.

Lemma but_last_last (l : list string) :
  l <> [] -> l = (but_last l ++ [last_item l])%list.
Proof. intros H. now apply app_removelast_last. Qed.

Lemma join_snoc (l : list string) (x : string) :
  l <> [] -> join sep (l ++ [x])%list = join sep l ++ sep ++ x.
Proof.
  induction l as [|y l IH]; [congruence|]. intros _.
  destruct l as [|z l]; [reflexivity|].
  assert (IH' := IH ltac:(discriminate)).
  change (join sep ((y :: z :: l) ++ [x])%list)
    with (y ++ sep ++ join sep ((z :: l) ++ [x])%list).
  rewrite IH'.
  change (join sep (y :: z :: l)) with (y ++ sep ++ join sep (z :: l)).
  now rewrite !append_associative.
Qed.

End SplitFacts.

(** ** Patterns: the matcher decides the language *)

Section RegexFacts.

Import Re.
Local Open Scope string_scope.
Local Arguments Ascii.eqb : simpl never.

Lemma append_empty_inv (a b : string) : a ++ b = "" -> a = "" /\ b = "".
Proof. destruct a; simpl; [auto | discriminate]. Qed.

Lemma matches_cat_inv (r1 r2 : regex) (s : string) :
  matches (Cat r1 r2) s ->
  exists s1 s2, s = s1 ++ s2 /\ matches r1 s1 /\ matches r2 s2.
Proof. inversion 1; subst; eauto. Qed.

Lemma nullable_matches (r : regex) : nullable r = true <-> matches r "".
Proof.
  split.
  - induction r; simpl; try discriminate; intros H.
    + constructor.
    + apply andb_true_iff in H as [H1 H2].
      change "" with ("" ++ ""). constructor; auto.
    + apply orb_true_iff in H as [H|H];
        [apply M_alt_l | apply M_alt_r]; auto.
    + constructor.
  - intros H. remember "" as s eqn:E.
    induction H; simpl; try discriminate; auto.
    + apply append_empty_inv in E as [-> ->].
      now rewrite IHmatches1, IHmatches2.
    + now rewrite IHmatches.
    + rewrite IHmatches by assumption. apply orb_true_r.
Qed.

Lemma deriv_sound (a : ascii) (r : regex) (s : string) :
  matches (deriv a r) s -> matches r (String a s).
Proof.
  revert s; induction r; intros s; simpl; intros H;
    try solve [inversion H].
  - destruct (Ascii.eqb_spec a c) as [->|]; inversion H; constructor.
  - destruct (Ascii.eqb_spec a PyStr.LF) as [|Hne]; inversion H.
    now constructor.
  - inversion H. constructor.
  - assert (Hcat : forall t, matches (Cat (deriv a r1) r2) t ->
                             matches (Cat r1 r2) (String a t)).
    { intros t Ht. apply matches_cat_inv in Ht as (s1 & s2 & -> & H1 & H2).
      change (String a (s1 ++ s2)) with (String a s1 ++ s2).
      constructor; auto. }
    destruct (nullable r1) eqn:N; [|now apply Hcat].
    inversion H; subst; [now apply Hcat|].
    change (String a s) with ("" ++ String a s).
    constructor; [now apply nullable_matches | auto].
  - inversion H; subst; [apply M_alt_l | apply M_alt_r]; auto.
  - apply matches_cat_inv in H as (s1 & s2 & -> & H1 & H2).
    change (String a (s1 ++ s2)) with (String a s1 ++ s2).
    constructor; auto.
Qed.

Lemma deriv_complete (a : ascii) (r : regex) (s : string) :
  matches r (String a s) -> matches (deriv a r) s.
Proof.
  intros H. remember (String a s) as t eqn:E. revert a s E.
  induction H as [ | c | c Hc | c | r1 r2 s1 s2 H1 IH1 H2 IH2
                 | r1 r2 u H1 IH1 | r1 r2 u H2 IH2 | r1
                 | r1 s1 s2 H1 IH1 H2 IH2 ];
    intros x t E; simpl; try discriminate.
  - injection E as <- <-. rewrite Ascii.eqb_refl. constructor.
  - injection E as <- <-.
    destruct (Ascii.eqb_spec c PyStr.LF); [contradiction | constructor].
  - injection E as <- <-. constructor.
  - destruct s1 as [|b s1]; simpl in E.
    + subst s2. rewrite (proj2 (nullable_matches r1) H1).
      apply M_alt_r. now apply IH2.
    + injection E as -> <-.
      assert (Hc : matches (Cat (deriv x r1) r2) (s1 ++ s2))
        by (constructor; [now apply IH1 | assumption]).
      destruct (nullable r1); [now apply M_alt_l | assumption].
  - apply M_alt_l. now apply IH1.
  - apply M_alt_r. now apply IH2.
  - destruct s1 as [|b s1]; simpl in E.
    + now apply (IH2 x t).
    + injection E as -> <-. constructor; [now apply IH1 | assumption].
Qed.

Lemma fullmatch_matches (r : regex) (s : string) :
  fullmatch r s = true <-> matches r s.
Proof.
  revert r; induction s as [|a s IH]; intros r; simpl.
  - apply nullable_matches.
  - rewrite IH. split; [apply deriv_sound | apply deriv_complete].
Qed.

Lemma matches_any_run (s : string) : matches (Star AnyChar) s.
Proof.
  induction s as [|a s IH]; [constructor|].
  change (String a s) with (String a "" ++ s). constructor; [constructor|auto].
Qed.

Lemma matches_lit (p s : string) : matches (lit p) s <-> s = p.
Proof.
  revert s; induction p as [|a p IH]; intros s; simpl.
  - split; [now inversion 1 | intros ->; constructor].
  - split.
    + intros H. apply matches_cat_inv in H as (s1 & s2 & -> & H1 & H2).
      inversion H1; subst. simpl. f_equal. now apply IH.
    + intros ->. change (String a p) with (String a "" ++ p).
      constructor; [constructor | now apply IH].
Qed.

Lemma matches_dot_run (s : string) :
  matches (Star Dot) s <-> PyStr.has_char PyStr.LF s = false.
Proof.
  split.
  - intros H. remember (Star Dot) as r eqn:E.
    induction H; try discriminate; [reflexivity|].
    injection E as ->. inversion H; subst. simpl.
    rewrite (IHmatches2 eq_refl), orb_false_r.
    apply Ascii.eqb_neq. congruence.
  - induction s as [|a s IH]; simpl; [constructor|]. intros H.
    apply orb_false_iff in H as [Ha Hs].
    change (String a s) with (String a "" ++ s).
    constructor; [|auto]. constructor.
    apply Ascii.eqb_neq in Ha. congruence.
Qed.

(** [re.search] with a pattern [opening.*closing]. *)
Lemma search_shape (opening : string) (closing : ascii) (line : string) :
  search (Cat (lit opening) (Cat (Star Dot) (Chr closing))) line = true
  <-> Design.shows opening closing line.
Proof.
  unfold search, Design.shows. rewrite fullmatch_matches. split.
  - intros H.
    apply matches_cat_inv in H as (before & t & -> & _ & H).
    apply matches_cat_inv in H as (m & after & -> & H & _).
    apply matches_cat_inv in H as (o & t & -> & Ho & H).
    apply matches_cat_inv in H as (inside & c & -> & Hi & Hc).
    apply matches_lit in Ho as ->. inversion Hc; subst.
    exists before, inside, after. split; [|now apply matches_dot_run].
    rewrite !append_associative. reflexivity.
  - intros (before & inside & after & -> & Hi).
    constructor; [apply matches_any_run|].
    replace (opening ++ inside ++ String closing after)
      with ((opening ++ inside ++ String closing "") ++ after)
      by (now rewrite !append_associative).
    constructor; [|apply matches_any_run].
    constructor; [now apply matches_lit|].
    constructor; [now apply matches_dot_run | constructor].
Qed.

(** The loop over [strings_to_strip] recognises exactly the six
    annotation shapes. *)
Lemma strings_to_strip_spec (line : string) :
  existsb (fun pattern => search pattern line) Juniper.strings_to_strip
  = true <-> Design.annotation line.
Proof.
  unfold Design.annotation.
  cbv beta zeta iota delta [Juniper.strings_to_strip existsb].
  rewrite !orb_true_iff, !search_shape. intuition discriminate.
Qed.

End RegexFacts.

(** ** [JuniperBase.commit]: argument validation and command selection *)

Section CommitArguments.

Import PyStr Juniper Design.
Local Open Scope string_scope.

Lemma delay_truthy_supplied (confirm_delay : option Z) :
  delay_well_formed confirm_delay ->
  (delay_truthy confirm_delay = true <-> supplied confirm_delay).
Proof.
  unfold delay_well_formed, supplied. intros Hwf.
  destruct confirm_delay as [n|]; simpl.
  - specialize (Hwf n eq_refl). split; [discriminate|]. intros _.
    apply negb_true_iff, Z.eqb_neq. lia.
  - split; [discriminate | congruence].
Qed.

Lemma has_char_truthy (c : ascii) (s : string) :
  has_char c s = true -> truthy s = true.
Proof. destruct s; [discriminate | reflexivity]. Qed.

(** The illegal combinations as a boolean test on the arguments. *)
Lemma invalid_arguments_test (confirm : bool) (confirm_delay : option Z)
    (check : bool) (comment : string) :
  delay_well_formed confirm_delay ->
  (invalid_arguments confirm confirm_delay check comment <->
   (check && (confirm || delay_truthy confirm_delay || truthy comment))
     || (delay_truthy confirm_delay && negb confirm)
     || has_char DQUOTE comment = true).
Proof.
  intros Hwf. unfold invalid_arguments, has_double_quote.
  rewrite <- has_char_spec, <- (delay_truthy_supplied _ Hwf).
  rewrite <- truthy_spec.
  rewrite !orb_true_iff, !andb_true_iff, !orb_true_iff, negb_true_iff.
  tauto.
Qed.

(** The only exception the validation block raises is
    [InvalidCommitArguments], and it raises it exactly on the test
    above. *)
Lemma commit_command_raises (confirm : bool) (confirm_delay : option Z)
    (check : bool) (comment : string) (and_quit : bool) :
  (check && (confirm || delay_truthy confirm_delay || truthy comment))
    || (delay_truthy confirm_delay && negb confirm)
    || has_char DQUOTE comment = true ->
  exists msg,
    commit_command confirm confirm_delay check comment and_quit
    = Raise (InvalidCommitArguments msg).
Proof.
  unfold commit_command. intros H.
  destruct (has_char DQUOTE comment) eqn:Hq.
  - rewrite (has_char_truthy _ _ Hq).
    destruct check, confirm, (delay_truthy confirm_delay); simpl; eauto.
  - destruct check, confirm, (delay_truthy confirm_delay),
      (truthy comment); simpl in *; eauto; discriminate.
Qed.

Lemma commit_command_returns (confirm : bool) (confirm_delay : option Z)
    (check : bool) (comment : string) (and_quit : bool) :
  (check && (confirm || delay_truthy confirm_delay || truthy comment))
    || (delay_truthy confirm_delay && negb confirm)
    || has_char DQUOTE comment = false ->
  commit_command confirm confirm_delay check comment and_quit
  = Ok (full_command confirm
          (if delay_truthy confirm_delay then confirm_delay else None)
          check comment and_quit,
        table_marker confirm check).
Proof.
  unfold commit_command, full_command, table_command, table_marker,
    comment_suffix, quit_suffix.
  intros H.
  destruct (has_char DQUOTE comment) eqn:Hq;
    [now rewrite !orb_true_r in H|].
  destruct comment as [|c comment];
    destruct check, confirm, (delay_truthy confirm_delay) eqn:Hd,
      and_quit; simpl in *; try discriminate;
    try destruct confirm_delay; try discriminate;
    rewrite ?append_empty_r, ?append_associative; simpl;
    rewrite ?append_associative; reflexivity.
Qed.

End CommitArguments.

(** ** Running the Juniper methods *)

Section JuniperRuns.

Import PyStr Juniper Design.
Local Open Scope string_scope.

Variable Chan : Type.
Variable base : BaseConnection Chan.
Variable re_escape : string -> string.

(** Rejected arguments: [commit] stops where it stands. *)
Lemma commit_run_rejected confirm confirm_delay check comment and_quit
    delay_factor (e : exn) (w : World Chan) :
  commit_command confirm confirm_delay check comment and_quit = Raise e ->
  commit base re_escape confirm confirm_delay check comment and_quit
    delay_factor w
  = (Raise e, w).
Proof.
  intros E. unfold Juniper.commit, bind, get_session, lift_result.
  now rewrite E.
Qed.

(** Accepted arguments: one call of [config_mode], then one of
    [send_command] with [fast_cli] cleared, then the flag is put back
    and the marker looked for. *)
Lemma commit_run_accepted confirm confirm_delay check comment and_quit
    delay_factor (command_string commit_marker : string) (w : World Chan) :
  commit_command confirm confirm_delay check comment and_quit
  = Ok (command_string, commit_marker) ->
  commit base re_escape confirm confirm_delay check comment and_quit
    delay_factor w
  = let entering := EvConfigMode "configure" "Entering configuration mode" 0 in
    match base_config_mode base "configure" "Entering configuration mode" 0
            (session w) with
    | (Raise e, s1) =>
        (Raise (Inherited e), mkWorld s1 (trace w ++ [entering]))
    | (Ok output, s1) =>
        let expect_string := commit_expect_string re_escape and_quit s1 in
        let delay := commit_delay_factor base delay_factor (session w) in
        let sending :=
          EvSendCommand command_string expect_string false false delay
            false in
        match send_command base command_string expect_string false false
                delay (set_fast_cli false s1) with
        | (r, s2) =>
            (match r with
             | Raise e => Raise (Inherited e)
             | Ok more =>
                 if contains commit_marker (output ++ more)
                 then Ok (output ++ more)
                 else Raise (commit_failure (output ++ more))
             end,
             mkWorld (set_fast_cli (fast_cli s1) s2)
               (trace w ++ [entering; sending]))
        end
    end.
Proof.
  intros E.
  unfold Juniper.commit, bind, get_session, lift_result. rewrite E.
  unfold config_mode, call. cbn [session trace].
  destruct (base_config_mode base _ _ _ (session w)) as [[output|e] s1];
    [|reflexivity].
  cbn [session trace].
  unfold try_finally, bind, assign_fast_cli, call_send_command, call, ret.
  cbn [session trace fast_cli].
  destruct (send_command base _ _ _ _ _ (set_fast_cli false s1))
    as [[more|e] s2]; cbn [session trace];
    rewrite <- app_assoc; cbn [app]; [|reflexivity].
  unfold raise, commit_failure.
  now destruct (contains commit_marker (output ++ more)).
Qed.


(** [exit_config_mode] when the probe says "in config" and the calls
    into the base class all return. *)
Lemma exit_run_config (exit_config : string) (w : World Chan)
    (s1 s2 s3 s4 : Session Chan) (output more : string) (still : bool) :
  base_check_config_mode base "]" (session w) = (Ok true, s1) ->
  send_command_timing base exit_config false false s1 = (Ok output, s2) ->
  (if contains "Exit with uncommitted changes?" output
   then send_command_timing base "yes" false false s2
   else (Ok "", s2)) = (Ok more, s3) ->
  base_check_config_mode base "]" s3 = (Ok still, s4) ->
  exit_config_mode base exit_config w
  = (if still then Raise mode_failure else Ok (output ++ more),
     mkWorld s4
       (trace w
          ++ [EvCheckConfigMode "]";
              EvSendCommandTiming exit_config false false]
          ++ (if contains "Exit with uncommitted changes?" output
              then [EvSendCommandTiming "yes" false false] else [])
          ++ [EvCheckConfigMode "]"])).
Proof.
  intros E1 E2 E3 E4.
  unfold Juniper.exit_config_mode, bind, check_config_mode,
    call_send_command_timing, call.
  rewrite E1. cbn [session trace]. rewrite E2. cbn [session trace].
  destruct (contains "Exit with uncommitted changes?" output).
  - unfold bind, call, ret. cbn [session trace]. rewrite E3.
    cbn [session trace]. rewrite E4. unfold raise, mode_failure.
    rewrite <- !app_assoc. cbn [app]. now destruct still.
  - unfold ret. injection E3 as <- <-. cbn [session trace]. rewrite E4.
    unfold raise, mode_failure. rewrite append_empty_r.
    rewrite <- !app_assoc. cbn [app]. now destruct still.
Qed.

End JuniperRuns.

(** ** The commit protocol *)

Section CommitProtocol.

Import PyStr Juniper Design.
Local Open Scope string_scope.

Variable Chan : Type.
Variable base : BaseConnection Chan.
Variable re_escape : string -> string.

Lemma commands_sent_app (t1 t2 : list event) :
  commands_sent (t1 ++ t2) = (commands_sent t1 ++ commands_sent t2)%list.
Proof.
  induction t1 as [|e t1 IH]; simpl; [reflexivity|].
  destruct (command_of e); simpl; now rewrite IH.
Qed.

(** C1. [commit] raises [InvalidCommitArguments] exactly on the three
    illegal argument combinations (check together with confirm, a
    confirm delay or a comment; a confirm delay without confirm; a
    comment holding a double quote), and when it does, nothing has been
    sent and the session is as it was.  The confirm delay, when given,
    is a positive integer, as the data model has it. *)
Theorem commit_invalid_arguments
    (confirm : bool) (confirm_delay : option Z) (check : bool)
    (comment : string) (and_quit : bool) (delay_factor : Q)
    (w : World Chan) :
  delay_well_formed confirm_delay ->
  (invalid_arguments confirm confirm_delay check comment <->
   exists msg,
     fst (commit base re_escape confirm confirm_delay check comment
            and_quit delay_factor w)
     = Raise (InvalidCommitArguments msg))
  /\ (invalid_arguments confirm confirm_delay check comment ->
      snd (commit base re_escape confirm confirm_delay check comment
             and_quit delay_factor w) = w).
Proof.
  intros Hwf. rewrite (invalid_arguments_test _ _ _ _ Hwf).
  destruct ((check && (confirm || delay_truthy confirm_delay
                         || truthy comment))
            || (delay_truthy confirm_delay && negb confirm)
            || has_char DQUOTE comment) eqn:T.
  - destruct (commit_command_raises _ _ _ _ and_quit T) as [msg E].
    rewrite (commit_run_rejected _ base re_escape _ _ _ _ _ delay_factor
               _ w E).
    split; [|reflexivity].
    split; [intros _; now exists msg | reflexivity].
  - split; [|discriminate]. split; [discriminate|]. intros [msg E].
    rewrite (commit_run_accepted _ base re_escape _ _ _ _ _ delay_factor
               _ _ w (commit_command_returns _ _ _ _ and_quit T)) in E.
    cbv zeta in E.
    destruct (base_config_mode base _ _ _ (session w)) as [[output|e] s1];
      [|discriminate].
    destruct (send_command base _ _ _ _ _ _) as [[more|e] s2];
      [|discriminate].
    simpl in E. destruct (contains _ (output ++ more)); discriminate.
Qed.

(** C2. For valid arguments the command string and the success marker
    are the ones the selection table gives (first match: check;
    confirm with a delay; confirm alone; plain commit), followed by the
    quoted comment and then by and-quit when asked for; and this is the
    command [commit] sends once configuration mode has been entered. *)
Theorem commit_command_selection
    (confirm : bool) (confirm_delay : option Z) (check : bool)
    (comment : string) (and_quit : bool) :
  delay_well_formed confirm_delay ->
  ~ invalid_arguments confirm confirm_delay check comment ->
  commit_command confirm confirm_delay check comment and_quit
  = Ok (full_command confirm confirm_delay check comment and_quit,
        table_marker confirm check)
  /\ forall (delay_factor : Q) (w : World Chan) (output : string)
            (s1 : Session Chan),
      base_config_mode base "configure" "Entering configuration mode" 0
        (session w) = (Ok output, s1) ->
      commands_sent
        (trace (snd (commit base re_escape confirm confirm_delay check
                       comment and_quit delay_factor w)))
      = (commands_sent (trace w)
           ++ ["configure";
               full_command confirm confirm_delay check comment and_quit])
        %list.
Proof.
  intros Hwf Hvalid.
  rewrite (invalid_arguments_test _ _ _ _ Hwf) in Hvalid.
  apply not_true_is_false in Hvalid.
  pose proof (commit_command_returns _ _ _ _ and_quit Hvalid) as E.
  assert (Hd : (if delay_truthy confirm_delay then confirm_delay else None)
               = confirm_delay).
  { destruct confirm_delay as [n|]; [|reflexivity].
    rewrite (proj2 (delay_truthy_supplied _ Hwf)); [reflexivity|].
    discriminate. }
  rewrite Hd in E. split; [exact E|].
  intros delay_factor w output s1 Hcfg.
  rewrite (commit_run_accepted _ base re_escape _ _ _ _ _ delay_factor
             _ _ w E).
  cbv zeta. rewrite Hcfg.
  destruct (send_command base _ _ _ _ _ _) as [r s2].
  cbn [snd trace]. now rewrite commands_sent_app.
Qed.

(** C3. Once the commit command has been sent and answered, [commit]
    returns the collected output when that output contains the
    variant's marker, and otherwise raises [CommitFailedError] with a
    message that ends in the whole collected output. *)
Theorem commit_marker_decides
    (confirm : bool) (confirm_delay : option Z) (check : bool)
    (comment : string) (and_quit : bool) (delay_factor : Q)
    (command_string commit_marker : string)
    (w : World Chan) (output more : string) (s1 s2 : Session Chan) :
  commit_command confirm confirm_delay check comment and_quit
  = Ok (command_string, commit_marker) ->
  base_config_mode base "configure" "Entering configuration mode" 0
    (session w) = (Ok output, s1) ->
  send_command base command_string
    (commit_expect_string re_escape and_quit s1) false false
    (commit_delay_factor base delay_factor (session w))
    (set_fast_cli false s1) = (Ok more, s2) ->
  let outcome :=
    fst (commit base re_escape confirm confirm_delay check comment
           and_quit delay_factor w) in
  (contains commit_marker (output ++ more) = true ->
   outcome = Ok (output ++ more))
  /\ (contains commit_marker (output ++ more) = false ->
      outcome
      = Raise (CommitFailedError
                 ("Commit failed with the following errors:" ++ nl ++ nl
                    ++ (output ++ more))))
  /\ ((exists returned, outcome = Ok returned) <->
      contains commit_marker (output ++ more) = true).
Proof.
  intros E Hcfg Hsend outcome. subst outcome.
  rewrite (commit_run_accepted _ base re_escape _ _ _ _ _ delay_factor
             _ _ w E).
  cbv zeta. rewrite Hcfg, Hsend. cbn [fst]. unfold commit_failure.
  destruct (contains commit_marker (output ++ more)).
  - split; [reflexivity|]. split; [discriminate|].
    split; [reflexivity | intros _; now exists (output ++ more)].
  - split; [discriminate|]. split; [reflexivity|].
    split; [now intros [returned ?] | discriminate].
Qed.

(** C8. [check=True] together with [and_quit=True] (and nothing else)
    passes validation: the command sent is "commit check and-quit",
    the marker looked for is "configuration check succeeds", and
    [InvalidCommitArguments] is not raised. *)
Theorem commit_check_and_quit (delay_factor : Q) (w : World Chan) :
  commit_command false None true "" true
  = Ok ("commit check and-quit", "configuration check succeeds")
  /\ (forall msg,
        fst (commit base re_escape false None true "" true delay_factor w)
        <> Raise (InvalidCommitArguments msg))
  /\ match base_config_mode base "configure" "Entering configuration mode"
             0 (session w) with
     | (Ok _, s1) =>
         trace (snd (commit base re_escape false None true "" true
                       delay_factor w))
         = (trace w
              ++ [EvConfigMode "configure" "Entering configuration mode" 0;
                  EvSendCommand "commit check and-quit"
                    (Some (re_escape (base_prompt s1))) false false
                    (commit_delay_factor base delay_factor (session w))
                    false])%list
     | (Raise _, _) =>
         commands_sent
           (trace (snd (commit base re_escape false None true "" true
                          delay_factor w)))
         = (commands_sent (trace w) ++ ["configure"])%list
     end.
Proof.
  assert (E : commit_command false None true "" true
              = Ok ("commit check and-quit", "configuration check succeeds"))
    by reflexivity.
  split; [exact E|].
  rewrite (commit_run_accepted _ base re_escape _ _ _ _ _ delay_factor
             _ _ w E).
  cbv zeta.
  destruct (base_config_mode base _ _ _ (session w)) as [[output|e] s1].
  - destruct (send_command base _ _ _ _ _ _) as [[more|e] s2];
      cbn [fst snd trace]; split; try reflexivity; intros msg;
      [destruct (contains _ (output ++ more))|]; discriminate.
  - cbn [fst snd trace]. split; [discriminate|].
    now rewrite commands_sent_app.
Qed.

End CommitProtocol.

(** ** Leaving configuration mode, and the fast-mode flag *)

Section ModeMachine.

Import PyStr Juniper Design.
Local Open Scope string_scope.

Variable Chan : Type.
Variable base : BaseConnection Chan.
Variable re_escape : string -> string.

(** C4. In configuration mode [exit_config_mode] sends the exit command
    once; it sends "yes", once, exactly when the answer holds the
    uncommitted-changes question; it then probes the mode again and
    raises [ModeTransitionError] exactly when the probe still reports
    configuration mode, returning the collected output otherwise. *)
Theorem exit_config_mode_in_config
    (exit_config : string) (w : World Chan) (s1 s2 s3 s4 : Session Chan)
    (output more : string) (still : bool) :
  base_check_config_mode base "]" (session w) = (Ok true, s1) ->
  send_command_timing base exit_config false false s1 = (Ok output, s2) ->
  let asked := contains "Exit with uncommitted changes?" output in
  (if asked then send_command_timing base "yes" false false s2
   else (Ok "", s2)) = (Ok more, s3) ->
  base_check_config_mode base "]" s3 = (Ok still, s4) ->
  let run := exit_config_mode base exit_config w in
  trace (snd run)
  = (trace w
       ++ [EvCheckConfigMode "]";
           EvSendCommandTiming exit_config false false]
       ++ (if asked then [EvSendCommandTiming "yes" false false] else [])
       ++ [EvCheckConfigMode "]"])%list
  /\ commands_sent (trace (snd run))
     = (commands_sent (trace w)
          ++ exit_config :: (if asked then ["yes"] else []))%list
  /\ (still = true <-> fst run = Raise mode_failure)
  /\ (still = false <-> fst run = Ok (output ++ more))
  /\ session (snd run) = s4.
Proof.
  intros E1 E2 asked E3 E4 run. subst run.
  rewrite (exit_run_config _ base exit_config w s1 s2 s3 s4 output more
             still E1 E2 E3 E4).
  fold asked. cbn [fst snd trace session].
  split; [reflexivity|]. split.
  - rewrite !commands_sent_app. now destruct asked.
  - destruct still; repeat split; congruence.
Qed.


(** C7. [commit] clears [fast_cli] around its [send_command] call and
    puts the saved value back whether the call returns or raises; so on
    every way out of [commit] (normal return, [CommitFailedError], an
    exception from the send, rejected arguments) the flag ends up as it
    was before the call, given that entering configuration mode does
    not itself touch the flag. *)
Theorem commit_restores_fast_cli
    (confirm : bool) (confirm_delay : option Z) (check : bool)
    (comment : string) (and_quit : bool) (delay_factor : Q)
    (w : World Chan) :
  (forall config_command pattern re_flags s,
      fast_cli (snd (base_config_mode base config_command pattern
                       re_flags s)) = fast_cli s) ->
  let run := commit base re_escape confirm confirm_delay check comment
               and_quit delay_factor w in
  fast_cli (session (snd run)) = fast_cli (session w)
  /\ exists new,
      trace (snd run) = (trace w ++ new)%list
      /\ existsb sent_in_fast_mode new = false.
Proof.
  intros Hframe run. subst run.
  destruct (commit_command confirm confirm_delay check comment and_quit)
    as [[command_string commit_marker]|e] eqn:E.
  - rewrite (commit_run_accepted _ base re_escape _ _ _ _ _ delay_factor
               _ _ w E).
    cbv zeta.
    pose proof (Hframe "configure" "Entering configuration mode" 0%Z
                  (session w)) as Hf.
    destruct (base_config_mode base _ _ _ (session w)) as [[output|e] s1];
      cbn [snd] in Hf.
    + destruct (send_command base _ _ _ _ _ _) as [r s2].
      cbn [snd session trace fast_cli set_fast_cli].
      split; [exact Hf|]. eexists. split; reflexivity.
    + cbn [snd session trace]. split; [exact Hf|].
      eexists. split; reflexivity.
  - rewrite (commit_run_rejected _ base re_escape _ _ _ _ _ delay_factor
               _ w E).
    cbn [snd]. split; [reflexivity|]. exists []. now rewrite app_nil_r.
Qed.

End ModeMachine.

(** ** HP Comware: the enable tier is configuration mode *)

Section Comware.

Import HPComware.
Local Open Scope string_scope.

Variable Chan : Type.
Variable base : CiscoSSHConnection Chan.

(** C9. On Comware each enable-tier operation is the matching
    configuration-mode operation: [enable] is [config_mode] with
    "system-view", [check_enable_mode] is [check_config_mode] with "]",
    and [exit_enable_mode] is [exit_config_mode] with "return"; each
    pair gives the same result and the same final state from every
    starting state, for the default arguments and for any others. *)
Theorem enable_tier_is_config_mode (w : World Chan) :
  enable base "system-view" w = config_mode base "system-view" "" 0 w
  /\ check_enable_mode base "]" w = check_config_mode base "]" w
  /\ exit_enable_mode base "return" w = exit_config_mode base "return" ">" w
  /\ enable_cmd = config_mode_config_command
  /\ check_enable_mode_check_string = check_config_mode_check_string
  /\ exit_enable_mode_exit_command = exit_config_mode_exit_config
  /\ (forall cmd,
        enable base cmd w
        = config_mode base cmd config_mode_pattern config_mode_re_flags w)
  /\ (forall check_string,
        check_enable_mode base check_string w
        = check_config_mode base check_string w)
  /\ (forall exit_command,
        exit_enable_mode base exit_command w
        = exit_config_mode base exit_command exit_config_mode_pattern w).
Proof. repeat split. Qed.

End Comware.

(** ** The response sanitizer: [strip_context_items] *)

Section Sanitizer.

Import PyStr Juniper Design.
Local Open Scope string_scope.

Variable Chan : Type.

Lemma strip_context_items_run (self : Session Chan) (a_string : string) :
  RESPONSE_RETURN self <> "" ->
  strip_context_items self a_string
  = if existsb
         (fun pattern =>
            Re.search pattern
              (last_item (split (RESPONSE_RETURN self) a_string)))
         strings_to_strip
    then Ok (join (RESPONSE_RETURN self)
               (but_last (split (RESPONSE_RETURN self) a_string)))
    else Ok a_string.
Proof.
  intros Hsep. unfold strip_context_items.
  destruct (RESPONSE_RETURN self); [now elim Hsep | reflexivity].
Qed.

(** C6. [strip_context_items] splits on the line terminator and looks
    at the last piece only.  When that piece shows one of the six
    annotation shapes, the result is the other pieces joined again:
    the input up to, and without, the terminator in front of the last
    piece, its lines being the earlier lines unchanged.  Otherwise the
    result is the input. *)
Theorem strip_context_items_last_line
    (self : Session Chan) (a_string : string) :
  RESPONSE_RETURN self <> "" ->
  let sep := RESPONSE_RETURN self in
  let lines := split sep a_string in
  let last_line := last_item lines in
  join sep lines = a_string
  /\ lines = (but_last lines ++ [last_line])%list
  /\ (annotation last_line ->
      strip_context_items self a_string
      = Ok (join sep (but_last lines))
      /\ (but_last lines = [] /\ a_string = last_line
          \/ a_string = join sep (but_last lines) ++ sep ++ last_line
             /\ split sep (join sep (but_last lines)) = but_last lines))
  /\ (~ annotation last_line ->
      strip_context_items self a_string = Ok a_string).
Proof.
  intros Hsep sep lines last_line.
  assert (Hjoin : join sep lines = a_string) by apply join_split.
  assert (Hne : lines <> []) by apply split_fuel_nonempty.
  assert (Hlast : lines = (but_last lines ++ [last_line])%list)
    by now apply but_last_last.
  split; [exact Hjoin|]. split; [exact Hlast|].
  pose proof (strip_context_items_run self a_string Hsep) as Hrun.
  fold sep lines last_line in Hrun.
  split.
  - intros Hann. apply strings_to_strip_spec in Hann.
    rewrite Hrun, Hann. split; [reflexivity|].
    assert (Hcase : but_last lines = [] \/ but_last lines <> [])
      by (destruct (but_last lines); [now left | now right]).
    destruct Hcase as [Hb|Hb].
    + left. split; [exact Hb|].
      rewrite <- Hjoin. rewrite Hlast at 1. now rewrite Hb.
    + right. split.
      * rewrite <- Hjoin at 1. rewrite Hlast at 1.
        now apply join_snoc.
      * apply (Pieces_split sep Hsep).
        apply (Pieces_but_last sep Hsep a_string);
          [now apply split_Pieces | exact Hb].
  - intros Hann. rewrite Hrun.
    destruct (existsb _ strings_to_strip) eqn:T; [|reflexivity].
    apply strings_to_strip_spec in T. contradiction.
Qed.

(** C5, as the code has it.  With the newline as terminator, the input
    "set cli complete-on-space off\n[edit]\n" comes back unchanged: the
    piece after its final terminator is empty, and an empty piece is no
    annotation.  Without that final terminator the "[edit]" line is
    dropped together with the terminator in front of it, which leaves
    "set cli complete-on-space off". *)
Theorem strip_context_items_edit_example
    (fast legacy : bool) (prompt : string) (factor : Q) (ch : Chan) :
  let self := mkSession fast legacy prompt nl factor ch in
  strip_context_items self
    ("set cli complete-on-space off" ++ nl ++ "[edit]" ++ nl)
  = Ok ("set cli complete-on-space off" ++ nl ++ "[edit]" ++ nl)
  /\ strip_context_items self
       ("set cli complete-on-space off" ++ nl ++ "[edit]")
     = Ok "set cli complete-on-space off".
Proof. split; reflexivity. Qed.

End Sanitizer.

(** C5, as stated, fails: on the input with the trailing terminator the
    result is not "set cli complete-on-space off\n". *)
Lemma strip_context_items_keeps_trailing_edit :
  Juniper.strip_context_items (session (Sim.fresh true Sim.operational))
    ("set cli complete-on-space off" ++ PyStr.nl ++ "[edit]" ++ PyStr.nl)%string
  <> Ok ("set cli complete-on-space off" ++ PyStr.nl)%string.
Proof. vm_compute. discriminate. Qed.

(** ** The theorems at work on the scripted device *)

Section OnTheDevice.

Import PyStr Juniper Design Sim.
Local Open Scope string_scope.

Lemma commit_invalid_arguments_witness :
  snd (commit junos re_escape true (Some 5%Z) true "" false 1%Q
         (fresh true operational))
  = fresh true operational.
Proof.
  assert (Hwf : delay_well_formed (Some 5%Z)) by (intros n [= <-]; lia).
  destruct (commit_invalid_arguments Device junos re_escape
              true (Some 5%Z) true "" false 1%Q (fresh true operational)
              Hwf) as [_ H].
  apply H. left. split; [reflexivity | left; reflexivity].
Defined.

Lemma commit_command_selection_witness :
  commit_command true (Some 5%Z) false "" true
  = Ok ("commit confirmed 5 and-quit",
        "commit confirmed will be automatically rolled back in").
Proof.
  assert (Hwf : delay_well_formed (Some 5%Z)) by (intros n [= <-]; lia).
  assert (Hvalid : ~ invalid_arguments true (Some 5%Z) false "").
  { intros [[H _]|[[_ H]|H]]; try discriminate.
    apply has_char_spec in H. discriminate. }
  exact (proj1 (commit_command_selection Device junos re_escape
                  true (Some 5%Z) false "" true Hwf Hvalid)).
Defined.

Lemma commit_marker_decides_witness :
  exists returned,
    fst (commit junos re_escape false None false "" false 1%Q
           (fresh true operational)) = Ok returned.
Proof.
  edestruct (commit_marker_decides Device junos re_escape
               false None false "" false 1%Q "commit" "commit complete"
               (fresh true operational)) as (_ & _ & H);
    [reflexivity | reflexivity | reflexivity |].
  apply H. vm_compute. reflexivity.
Defined.

Lemma exit_config_mode_in_config_witness :
  commands_sent
    (trace (snd (exit_config_mode junos "exit configuration-mode"
                   (fresh true editing))))
  = ["exit configuration-mode"; "yes"].
Proof.
  edestruct (exit_config_mode_in_config Device junos
               "exit configuration-mode" (fresh true editing))
    as (_ & H & _);
    [reflexivity | reflexivity | reflexivity | reflexivity |].
  exact H.
Defined.


Lemma commit_restores_fast_cli_witness :
  fast_cli (session (snd (commit junos re_escape false None false ""
                            false 1%Q (fresh true stalling))))
  = true.
Proof.
  assert (Hframe : forall config_command pattern re_flags s,
             fast_cli (snd (base_config_mode junos config_command pattern
                              re_flags s)) = fast_cli s).
  { intros config_command pattern re_flags s. simpl.
    unfold sim_config_mode.
    destruct (link_up (channel s)), (in_config (channel s)); reflexivity. }
  exact (proj1 (commit_restores_fast_cli Device junos re_escape
                  false None false "" false 1%Q (fresh true stalling)
                  Hframe)).
Defined.

Lemma strip_context_items_last_line_witness :
  strip_context_items (session (fresh true editing))
    ("show version" ++ nl ++ "[edit interfaces]")
  = Ok "show version".
Proof.
  assert (Hsep : RESPONSE_RETURN (session (fresh true editing)) <> "")
    by discriminate.
  destruct (strip_context_items_last_line Device
              (session (fresh true editing))
              ("show version" ++ nl ++ "[edit interfaces]") Hsep)
    as (_ & _ & H & _).
  apply H. apply strings_to_strip_spec. reflexivity.
Defined.

(** Further runs: the three ways out of [commit] after the arguments
    have been accepted, and the flag on each. *)
Example commit_succeeds :
  let run := commit junos re_escape false None false "" false 1%Q
               (fresh true operational) in
  contains "commit complete"
    (match fst run with Ok returned => returned | Raise _ => "" end) = true
  /\ commands_sent (trace (snd run)) = ["configure"; "commit"]
  /\ fast_cli (session (snd run)) = true.
Proof. vm_compute. auto. Qed.

Example commit_fails :
  let run := commit junos re_escape false None false "" false 1%Q
               (fresh true rejecting) in
  (exists output, fst run = Raise (commit_failure output)
                  /\ contains "check-out failed" output = true)
  /\ fast_cli (session (snd run)) = true.
Proof. split; [eexists; split; vm_compute; reflexivity | reflexivity]. Qed.

Example commit_send_raises :
  let run := commit junos re_escape false None false "" false 1%Q
               (fresh true stalling) in
  fst run = Raise (Inherited ReadException)
  /\ existsb sent_in_fast_mode (trace (snd run)) = false
  /\ commands_sent (trace (snd run)) = ["configure"; "commit"].
Proof. vm_compute. auto. Qed.

Example exit_stuck_device :
  fst (exit_config_mode junos "exit configuration-mode" (fresh true stuck))
  = Raise mode_failure.
Proof. reflexivity. Qed.

(** A zero [confirm_delay] is falsy in Python, so the code treats it as
    not given; the data model rules it out. *)
Example commit_zero_delay_counts_as_absent :
  commit_command true (Some 0%Z) false "" false
  = Ok ("commit confirmed",
        "commit confirmed will be automatically rolled back in")
  /\ commit_command false (Some 0%Z) true "" false
     = Ok ("commit check", "configuration check succeeds").
Proof. split; reflexivity. Qed.

Example str_int_examples :
  str_int 5 = "5" /\ str_int 120 = "120" /\ str_int 65535 = "65535".
Proof. repeat split. Qed.

Example split_examples :
  split nl ("a" ++ nl ++ "b" ++ nl) = ["a"; "b"; ""]
  /\ split "aa" "aaa" = [""; "a"]
  /\ split nl "" = [""].
Proof. repeat split. Qed.

Example search_examples :
  existsb (fun p => Re.search p "{master:0}") strings_to_strip = true
  /\ existsb (fun p => Re.search p "root@vmx# ") strings_to_strip = false
  /\ existsb (fun p => Re.search p "") strings_to_strip = false
  /\ existsb (fun p => Re.search p ("[edit" ++ nl ++ "]")) strings_to_strip
     = false.
Proof. repeat split. Qed.

End OnTheDevice.

(** * Further properties of the drivers *)

(** ** [strip], character counts, decimal numerals *)

Section TextFacts.

Import PyStr PyText.
Local Open Scope string_scope.

Lemma lstrip_split (s : string) :
  exists a, s = a ++ lstrip s /\ all_space a = true.
Proof.
  induction s as [|c s (a & E & Ha)]; simpl.
  - now exists "".
  - destruct (is_space c) eqn:Hc.
    + exists (String c a). simpl. rewrite Hc, Ha. split; [now f_equal|auto].
    + now exists "".
Qed.

Lemma lstrip_first (s : string) (c : ascii) :
  first_char (lstrip s) = Some c -> is_space c = false.
Proof.
  induction s as [|a s IH]; simpl; [discriminate|].
  destruct (is_space a) eqn:Ha; [exact IH|]. simpl. now intros [= <-].
Qed.

Lemma rstrip_split (s : string) :
  exists b, s = rstrip s ++ b /\ all_space b = true.
Proof.
  induction s as [|c s (b & E & Hb)]; simpl.
  - now exists "".
  - destruct (rstrip s) as [|d r] eqn:R.
    + destruct (is_space c) eqn:Hc.
      * exists (String c b). simpl in *. rewrite Hc, Hb. split; [now f_equal|auto].
      * exists b. simpl in *. split; [now f_equal | auto].
    + exists b. simpl in *. split; [now f_equal | auto].
Qed.

Lemma rstrip_last (s : string) (c : ascii) :
  last_char (rstrip s) = Some c -> is_space c = false.
Proof.
  revert c; induction s as [|a s IH]; intros c; simpl; [discriminate|].
  destruct (rstrip s) as [|d r] eqn:R.
  - destruct (is_space a) eqn:Ha; simpl; [discriminate | now intros [= <-]].
  - intros H. apply IH. exact H.
Qed.

Lemma rstrip_first (s : string) (c : ascii) :
  first_char s = Some c -> is_space c = false ->
  first_char (rstrip s) = Some c.
Proof.
  destruct s as [|a s]; simpl; [discriminate|]. intros [= ->] Hc.
  destruct (rstrip s); [now rewrite Hc | reflexivity].
Qed.

Lemma strip_first (s : string) (c : ascii) :
  first_char (strip s) = Some c -> is_space c = false.
Proof.
  unfold strip. destruct (lstrip s) as [|a t] eqn:L; [discriminate|].
  assert (Ha : is_space a = false)
    by (apply (lstrip_first s); now rewrite L).
  rewrite (rstrip_first (String a t) a eq_refl Ha). now intros [= <-].
Qed.

Lemma strip_last (s : string) (c : ascii) :
  last_char (strip s) = Some c -> is_space c = false.
Proof. apply rstrip_last. Qed.

Lemma strip_split (s : string) :
  exists a b, s = a ++ strip s ++ b
              /\ all_space a = true /\ all_space b = true.
Proof.
  destruct (lstrip_split s) as (a & Ea & Ha).
  destruct (rstrip_split (lstrip s)) as (b & Eb & Hb).
  exists a, b. unfold strip. now rewrite <- Eb.
Qed.

Lemma count_char_append (c : ascii) (a b : string) :
  count_char c (a ++ b) = (count_char c a + count_char c b)%nat.
Proof. induction a as [|x a IH]; simpl; [reflexivity | rewrite IH; lia]. Qed.

Lemma count_char_absent (c : ascii) (s : string) :
  has_char c s = false -> count_char c s = O.
Proof.
  induction s as [|x s IH]; simpl; [reflexivity|].
  intros H. apply orb_false_iff in H as [-> Hs]. now rewrite IH.
Qed.

(** A decimal numeral holds digits and at most a sign: no double quote. *)
Lemma string_of_uint_no_quote (d : Decimal.uint) :
  count_char DQUOTE (NilEmpty.string_of_uint d) = O.
Proof. induction d; simpl; auto. Qed.

Lemma str_int_no_quote (n : Z) : count_char DQUOTE (str_int n) = O.
Proof.
  unfold str_int, NilZero.string_of_int, NilZero.string_of_uint.
  destruct (Z.to_int n) as [d|d]; destruct d; simpl;
    try reflexivity; apply string_of_uint_no_quote.
Qed.

End TextFacts.

(** ** More on [commit] *)

Section CommitFurther.

Import PyStr PyText Juniper Design.
Local Open Scope string_scope.

Variable Chan : Type.
Variable base : BaseConnection Chan.
Variable re_escape : string -> string.

Lemma commit_command_ok_test (confirm : bool) (confirm_delay : option Z)
    (check : bool) (comment : string) (and_quit : bool)
    (command_string commit_marker : string) :
  commit_command confirm confirm_delay check comment and_quit
  = Ok (command_string, commit_marker) ->
  (check && (confirm || delay_truthy confirm_delay || truthy comment))
    || (delay_truthy confirm_delay && negb confirm)
    || has_char DQUOTE comment = false.
Proof.
  intros E.
  destruct ((check && (confirm || delay_truthy confirm_delay
                         || truthy comment))
            || (delay_truthy confirm_delay && negb confirm)
            || has_char DQUOTE comment) eqn:T; [|reflexivity].
  destruct (commit_command_raises _ _ _ _ and_quit T) as [msg E'].
  congruence.
Qed.

(** X1. [commit] calls [config_mode] at most once and [send_command] at most
    once, in that order, and calls nothing else; with rejected arguments
    it calls nothing at all. *)
Theorem commit_makes_at_most_two_calls
    (confirm : bool) (confirm_delay : option Z) (check : bool)
    (comment : string) (and_quit : bool) (delay_factor : Q)
    (w : World Chan) :
  let run := commit base re_escape confirm confirm_delay check comment
               and_quit delay_factor w in
  let entering := EvConfigMode "configure" "Entering configuration mode" 0 in
  exists new,
    trace (snd run) = (trace w ++ new)%list
    /\ (new = []
        \/ new = [entering]
        \/ exists command_string expect_string delay,
            new = [entering;
                   EvSendCommand command_string expect_string false false
                     delay false])
    /\ ((exists e, commit_command confirm confirm_delay check comment
                     and_quit = Raise e) -> new = []).
Proof.
  intros run entering. subst run.
  destruct (commit_command confirm confirm_delay check comment and_quit)
    as [[command_string commit_marker]|e] eqn:E.
  - rewrite (commit_run_accepted _ base re_escape _ _ _ _ _ delay_factor
               _ _ w E).
    cbv zeta.
    destruct (base_config_mode base _ _ _ (session w)) as [[output|e] s1].
    + destruct (send_command base _ _ _ _ _ _) as [r s2].
      cbn [snd trace]. eexists. split; [reflexivity|].
      split; [right; right; eauto | intros [e ?]; discriminate].
    + cbn [snd trace]. eexists. split; [reflexivity|].
      split; [now right; left | intros [e' ?]; discriminate].
  - rewrite (commit_run_rejected _ base re_escape _ _ _ _ _ delay_factor
               _ w E).
    exists []. cbn [snd]. rewrite app_nil_r. auto.
Qed.

(** X2. Whatever the device does: when [commit] returns at all, the text it
    returns contains the success marker of the variant asked for. *)
Theorem commit_return_holds_marker
    (confirm : bool) (confirm_delay : option Z) (check : bool)
    (comment : string) (and_quit : bool) (delay_factor : Q)
    (w : World Chan) (returned : string) :
  fst (commit base re_escape confirm confirm_delay check comment and_quit
         delay_factor w) = Ok returned ->
  contains (table_marker confirm check) returned = true.
Proof.
  destruct (commit_command confirm confirm_delay check comment and_quit)
    as [[command_string commit_marker]|e] eqn:E.
  - pose proof (commit_command_returns _ _ _ _ and_quit
                  (commit_command_ok_test _ _ _ _ _ _ _ E)) as E'.
    rewrite E in E'. injection E' as _ ->.
    rewrite (commit_run_accepted _ base re_escape _ _ _ _ _ delay_factor
               _ _ w E).
    cbv zeta.
    destruct (base_config_mode base _ _ _ (session w)) as [[output|e] s1];
      [|discriminate].
    destruct (send_command base _ _ _ _ _ _) as [[more|e] s2];
      [|discriminate].
    cbn [fst].
    destruct (contains _ (output ++ more)) eqn:C; [|discriminate].
    now intros [= <-].
  - rewrite (commit_run_rejected _ base re_escape _ _ _ _ _ delay_factor
               _ w E).
    discriminate.
Qed.

(** X3. On a session in fast mode (and not in legacy mode) the delay factor
    [commit] hands to [send_command] is never below 1, whatever factor
    the caller asked for and whatever [select_delay_factor] made of it;
    and a selected factor of 1 or more is always passed on as it is. *)
Theorem commit_delay_factor_floor
    (confirm : bool) (confirm_delay : option Z) (check : bool)
    (comment : string) (and_quit : bool) (delay_factor : Q)
    (w : World Chan) :
  let run := commit base re_escape confirm confirm_delay check comment
               and_quit delay_factor w in
  let selected := select_delay_factor base delay_factor (session w) in
  exists new,
    trace (snd run) = (trace w ++ new)%list
    /\ Forall (fun e =>
                 match e with
                 | EvSendCommand _ _ _ _ delay _ =>
                     (fast_cli (session w) = true ->
                      legacy_mode (session w) = false -> (1 <= delay)%Q)
                     /\ ((1 <= selected)%Q -> delay = selected)
                 | _ => True
                 end) new.
Proof.
  intros run selected. subst run.
  assert (Hfloor :
    (fast_cli (session w) = true -> legacy_mode (session w) = false ->
     (1 <= commit_delay_factor base delay_factor (session w))%Q)
    /\ ((1 <= selected)%Q ->
        commit_delay_factor base delay_factor (session w) = selected)).
  { unfold commit_delay_factor, below_one. fold selected. split.
    - intros -> ->. simpl.
      destruct (Qle_bool 1 selected) eqn:L; simpl.
      + now apply Qle_bool_iff.
      + apply Qle_refl.
    - intros L. apply Qle_bool_iff in L. now rewrite L. }
  destruct (commit_command confirm confirm_delay check comment and_quit)
    as [[command_string commit_marker]|e] eqn:E.
  - rewrite (commit_run_accepted _ base re_escape _ _ _ _ _ delay_factor
               _ _ w E).
    cbv zeta.
    destruct (base_config_mode base _ _ _ (session w)) as [[output|e] s1].
    + destruct (send_command base _ _ _ _ _ _) as [r s2].
      cbn [snd trace]. eexists. split; [reflexivity|].
      repeat constructor; apply Hfloor.
    + cbn [snd trace]. eexists. split; [reflexivity|].
      repeat constructor.
  - rewrite (commit_run_rejected _ base re_escape _ _ _ _ _ delay_factor
               _ w E).
    exists []. cbn [snd]. rewrite app_nil_r. auto.
Qed.

(** X4. An accepted command string holds exactly two double quotes, those
    around the comment, when a comment is given, and none otherwise. *)
Theorem commit_command_quotes
    (confirm : bool) (confirm_delay : option Z) (check : bool)
    (comment : string) (and_quit : bool)
    (command_string commit_marker : string) :
  commit_command confirm confirm_delay check comment and_quit
  = Ok (command_string, commit_marker) ->
  count_char DQUOTE command_string
  = if truthy comment then 2%nat else 0%nat.
Proof.
  intros E. pose proof (commit_command_ok_test _ _ _ _ _ _ _ E) as T.
  pose proof (commit_command_returns _ _ _ _ and_quit T) as E'.
  rewrite E in E'. injection E' as -> _.
  apply orb_false_iff in T as [_ Hq].
  unfold full_command. rewrite !count_char_append.
  assert (Htable : forall d, count_char DQUOTE
                               (table_command confirm d check) = O).
  { intros d. unfold table_command.
    destruct check; [reflexivity|].
    destruct confirm; [|reflexivity].
    destruct d as [n|]; [|reflexivity].
    rewrite count_char_append, str_int_no_quote. reflexivity. }
  assert (Hquit : count_char DQUOTE (quit_suffix and_quit) = O)
    by (destruct and_quit; reflexivity).
  rewrite Htable, Hquit.
  destruct comment as [|c comment]; [reflexivity|].
  unfold comment_suffix.
  change (" comment " ++ String DQUOTE (String c comment ++ String DQUOTE ""))
    with (" comment " ++ (String DQUOTE "" ++ (String c comment
                                                  ++ String DQUOTE ""))).
  rewrite !count_char_append, (count_char_absent _ _ Hq). reflexivity.
Qed.

(** X5. [and_quit] plays no part in validation and changes nothing but the
    end of the command: with it, the same arguments are accepted or
    rejected alike, the marker is the same, and the command is the one
    without it followed by " and-quit". *)
Theorem commit_and_quit_appends
    (confirm : bool) (confirm_delay : option Z) (check : bool)
    (comment : string) :
  commit_command confirm confirm_delay check comment true
  = match commit_command confirm confirm_delay check comment false with
    | Ok (command_string, commit_marker) =>
        Ok (command_string ++ " and-quit", commit_marker)
    | Raise e => Raise e
    end.
Proof.
  unfold commit_command.
  destruct check, confirm, (delay_truthy confirm_delay), (truthy comment),
    (has_char DQUOTE comment); reflexivity.
Qed.

End CommitFurther.

(** ** More on [exit_config_mode] *)

Section ExitFurther.

Import PyStr Juniper Design.
Local Open Scope string_scope.

Variable Chan : Type.
Variable base : BaseConnection Chan.

Ltac step_call :=
  match goal with
  | |- context [base_check_config_mode base ?c ?s] =>
      let r := fresh "r" in let s' := fresh "s" in let E := fresh "E" in
      destruct (base_check_config_mode base c s) as [[[|]|?] s'] eqn:E
  | |- context [send_command_timing base ?c ?a ?b ?s] =>
      let r := fresh "r" in let s' := fresh "s" in let E := fresh "E" in
      destruct (send_command_timing base c a b s) as [[?|?] s'] eqn:E
  end; cbn [session trace fst snd].

(** X6. Whatever the device does, [exit_config_mode] sends nothing, or the
    exit command, or the exit command and then "yes": never "yes" first,
    never a command twice; and it reports a failed exit only after
    having sent the exit command. *)
Theorem exit_config_mode_sends_at_most_two
    (exit_config : string) (w : World Chan) :
  let run := exit_config_mode base exit_config w in
  exists new,
    trace (snd run) = (trace w ++ new)%list
    /\ (commands_sent new = []
        \/ commands_sent new = [exit_config]
        \/ commands_sent new = [exit_config; "yes"])
    /\ (fst run = Raise mode_failure -> commands_sent new <> [])
    /\ (length new <= 4)%nat.
Proof.
  intros run. subst run.
  unfold exit_config_mode, bind, check_config_mode,
    call_send_command_timing, call, ret, raise, mode_failure.
  step_call.
  - step_call.
    + destruct (contains "Exit with uncommitted changes?" _).
      * unfold bind, call, ret. cbn [session trace].
        step_call; [step_call|];
          rewrite <- ?app_assoc; cbn [app];
          (eexists; split; [reflexivity|]); simpl;
          (repeat split; auto; try discriminate; lia).
      * step_call;
          rewrite <- ?app_assoc; cbn [app];
          (eexists; split; [reflexivity|]); simpl;
          (repeat split; auto; try discriminate; lia).
    + rewrite <- ?app_assoc; cbn [app].
      eexists; split; [reflexivity|]. simpl.
      repeat split; auto; try discriminate; lia.
  - eexists; split; [reflexivity|]. simpl.
    repeat split; auto; try discriminate; lia.
  - eexists; split; [reflexivity|]. simpl.
    repeat split; auto; try discriminate; lia.
Qed.

(** X7. When [exit_config_mode] returns at all, the session is in the state
    in which a mode probe has just answered "not in configuration
    mode". *)
Theorem exit_config_mode_returns_out_of_config
    (exit_config : string) (w : World Chan) (returned : string) :
  fst (exit_config_mode base exit_config w) = Ok returned ->
  exists probed,
    base_check_config_mode base "]" probed
    = (Ok false, session (snd (exit_config_mode base exit_config w))).
Proof.
  unfold exit_config_mode, bind, check_config_mode,
    call_send_command_timing, call, ret, raise.
  step_call; try discriminate.
  - step_call; try discriminate.
    destruct (contains "Exit with uncommitted changes?" _).
    + unfold bind, call, ret. cbn [session trace].
      step_call; try discriminate.
      step_call; try discriminate. intros _. eauto.
    + step_call; try discriminate. intros _. eauto.
  - intros _. eauto.
Qed.

End ExitFurther.

(** ** More on the sanitizer *)

Section SanitizerFurther.

Import PyStr Juniper Design.
Local Open Scope string_scope.

Variable Chan : Type.

Lemma last_cons_nonempty (x : string) (l : list string) :
  l <> [] -> last_item (x :: l) = last_item l.
Proof. destruct l; [congruence | reflexivity]. Qed.

(** With a one-character terminator, text that ends in the terminator
    splits into pieces the last of which is empty. *)
Lemma Pieces_trailing_terminator (c : ascii) (a : string)
    (l : list string) :
  Pieces (String c "") (a ++ String c "") l -> last_item l = "".
Proof.
  revert l; induction a as [|x a IH]; intros l H.
  - inversion H as [s E | s b r l' E H']; subst.
    + simpl in E. rewrite Ascii.eqb_refl in E. discriminate.
    + simpl in E. rewrite Ascii.eqb_refl in E. injection E as <- <-.
      inversion H'; subst; [reflexivity | discriminate].
  - inversion H as [s E | s b r l' E H']; subst.
    + exfalso.
      destruct (cut_complete (String c "") (String x a) "") as (b & r & E' & _).
      simpl in E, E'. rewrite E in E'. discriminate.
    + rewrite last_cons_nonempty by (destruct H'; discriminate).
      simpl in E. destruct (Ascii.eqb c x).
      * injection E as <- <-. now apply IH.
      * destruct (cut (String c "") (a ++ String c "")) as [[b' r']|] eqn:E';
          [|discriminate].
        injection E as <- <-.
        rewrite <- (last_cons_nonempty b') by (destruct H'; discriminate).
        apply IH. econstructor; eassumption.
Qed.

(** X8. With a one-character line terminator, text that ends in the
    terminator always comes back unchanged: whatever its last full line
    shows, the piece after the final terminator is empty and is no
    annotation. *)
Theorem strip_context_items_trailing_terminator
    (self : Session Chan) (c : ascii) (a_string : string) :
  RESPONSE_RETURN self = String c "" ->
  strip_context_items self (a_string ++ String c "")
  = Ok (a_string ++ String c "").
Proof.
  intros Hsep.
  assert (Hne : RESPONSE_RETURN self <> "") by (rewrite Hsep; discriminate).
  rewrite (strip_context_items_run _ self _ Hne).
  assert (Hlast : last_item (split (RESPONSE_RETURN self)
                               (a_string ++ String c "")) = "").
  { apply (Pieces_trailing_terminator c a_string).
    rewrite <- Hsep. now apply split_Pieces. }
  rewrite Hlast. reflexivity.
Qed.

Lemma last_item_Forall (P : string -> Prop) (l : list string) :
  l <> [] -> Forall P l -> P (last_item l).
Proof.
  intros Hne Hall. rewrite (but_last_last l Hne) in Hall.
  apply Forall_app in Hall as [_ Hlast]. now inversion Hlast.
Qed.

(** X9. [strip_prompt] never rewrites.  Take what the inherited
    [strip_prompt] returned and its last line: the piece after the last
    terminator (no terminator occurs inside it), or the whole text when
    there is no terminator at all.  If that line shows an annotation,
    the result is exactly the text in front of that last terminator
    (empty when there is none), which is the earlier pieces joined
    again; if it does not, the result is the text unchanged. *)
Theorem strip_prompt_keeps_a_prefix
    (transport : JuniperSession.Transport Chan)
    (self : Session Chan) (a_string stripped : string) :
  RESPONSE_RETURN self <> "" ->
  JuniperSession.base_strip_prompt transport a_string self = Ok stripped ->
  let sep := RESPONSE_RETURN self in
  exists before last_line,
    last_line = last_item (split sep stripped)
    /\ before = join sep (but_last (split sep stripped))
    /\ contains sep last_line = false
    /\ (stripped = last_line /\ before = ""
        /\ contains sep stripped = false
        \/ stripped = before ++ sep ++ last_line)
    /\ (annotation last_line ->
        JuniperSession.strip_prompt transport self a_string = Ok before)
    /\ (~ annotation last_line ->
        JuniperSession.strip_prompt transport self a_string = Ok stripped).
Proof.
  intros Hsep Hbase sep. unfold JuniperSession.strip_prompt. rewrite Hbase.
  rewrite (strip_context_items_run _ self _ Hsep). fold sep.
  set (lines := split sep stripped).
  pose proof (join_split sep stripped) as Hjoin. fold lines in Hjoin.
  assert (Hne : lines <> []) by apply split_fuel_nonempty.
  assert (Hlast : lines = (but_last lines ++ [last_item lines])%list)
    by now apply but_last_last.
  assert (Hclean : contains sep (last_item lines) = false).
  { apply (last_item_Forall (fun x => contains sep x = false));
      [exact Hne|].
    apply (Pieces_clean sep Hsep stripped). now apply split_Pieces. }
  exists (join sep (but_last lines)), (last_item lines).
  split; [reflexivity|]. split; [reflexivity|]. split; [exact Hclean|].
  split; [|split].
  - assert (Hcase : but_last lines = [] \/ but_last lines <> [])
      by (destruct (but_last lines); [now left | now right]).
    destruct Hcase as [Hb|Hb].
    + left. assert (E : stripped = last_item lines).
      { rewrite <- Hjoin. rewrite Hlast at 1. now rewrite Hb. }
      split; [exact E|]. split; [now rewrite Hb|]. now rewrite E at 1.
    + right. rewrite <- Hjoin at 1. rewrite Hlast at 1.
      now apply join_snoc.
  - intros Hann. apply strings_to_strip_spec in Hann. now rewrite Hann.
  - intros Hann.
    destruct (existsb _ strings_to_strip) eqn:T; [|reflexivity].
    apply strings_to_strip_spec in T. contradiction.
Qed.

End SanitizerFurther.

(** ** Entering the Junos CLI *)

Section EnterCli.

Import PyStr PyText JuniperSession.
Local Open Scope string_scope.

Variable Chan : Type.
Variable base : Juniper.BaseConnection Chan.
Variable transport : Transport Chan.
Variable RETURN : string.

Lemma writes_app (a b : list io_event) :
  writes (a ++ b) = (writes a ++ writes b)%list.
Proof.
  induction a as [|e a IH]; [reflexivity|].
  destruct e; simpl; now rewrite IH.
Qed.

Lemma texts_read_app (a b : list io_event) :
  texts_read (a ++ b) = (texts_read a ++ texts_read b)%list.
Proof.
  induction a as [|e a IH]; [reflexivity|].
  destruct e; simpl; now rewrite IH.
Qed.

(** [re.search] with a literal pattern is the substring test. *)
Lemma search_lit (p t : string) :
  Re.search (Re.lit p) t = true <-> exists a b, t = a ++ p ++ b.
Proof.
  unfold Re.search. rewrite fullmatch_matches. split.
  - intros H. apply matches_cat_inv in H as (a & r & -> & _ & H).
    apply matches_cat_inv in H as (m & b & -> & H & _).
    apply matches_lit in H as ->. now exists a, b.
  - intros (a & b & ->). constructor; [apply matches_any_run|].
    constructor; [now apply matches_lit | apply matches_any_run].
Qed.

(** The shell-prompt test of [enter_cli_mode], said plainly. *)
Lemma shell_prompt_spec (t : string) :
  shell_prompt t = true <->
  (exists a b, t = a ++ "root@" ++ b) \/ strip t = "%".
Proof.
  unfold shell_prompt. rewrite orb_true_iff, search_lit, fullmatch_matches.
  split; (intros [H|H]; [now left | right]).
  - apply matches_cat_inv in H as (x & y & E & Hx & Hy).
    inversion Hx; subst. inversion Hy as [| | | | | ? ? ? Hy' | ? ? ? Hy' | |];
      subst; inversion Hy'; subst; [exact E|].
    exfalso. pose proof (strip_last t LF) as Hl. rewrite E in Hl.
    specialize (Hl eq_refl). discriminate.
  - rewrite H. change "%" with ("%" ++ ""). constructor; [constructor|].
    apply Re.M_alt_l. constructor.
Qed.


Lemma last_cons_text (t : string) (l : list string) :
  l <> [] -> last (t :: l) "" = last l "".
Proof. destruct l; [congruence | reflexivity]. Qed.

(** One round of the loop, call by call. *)
Lemma enter_cli_loop_step (n : nat) (delay_factor : Q) (w : Wire Chan) :
  enter_cli_loop transport RETURN (S n) delay_factor w
  = let at_ s l :=
      {| inner := {| session := s; trace := trace (inner w) |};
         io_log := l; session_log_fin := session_log_fin w |} in
    match write_channel transport RETURN (session (inner w)) with
    | (Raise e, s1) =>
        (Raise (Inherited e), at_ s1 (io_log w ++ [IoWrite RETURN])%list)
    | (Ok _, s1) =>
        if Qle_bool 0 ((1 # 10) * delay_factor) then
          match read_channel transport s1 with
          | (Raise e, s2) =>
              (Raise (Inherited e),
               at_ s2 (io_log w
                         ++ [IoWrite RETURN;
                             IoSleep ((1 # 10) * delay_factor);
                             IoReadFailed])%list)
          | (Ok t, s2) =>
              let seen :=
                (io_log w
                   ++ [IoWrite RETURN; IoSleep ((1 # 10) * delay_factor);
                       IoRead t])%list in
              if shell_prompt t then
                match write_channel transport ("cli" ++ RETURN) s2 with
                | (Raise e, s3) =>
                    (Raise (Inherited e),
                     at_ s3 (seen ++ [IoWrite ("cli" ++ RETURN)])%list)
                | (Ok _, s3) =>
                    if Qle_bool 0 ((3 # 10) * delay_factor) then
                      match clear_buffer transport s3 with
                      | (r, s4) =>
                          (match r with
                           | Ok _ => Ok tt
                           | Raise e => Raise (Inherited e)
                           end,
                           at_ s4 (seen
                                     ++ [IoWrite ("cli" ++ RETURN);
                                         IoSleep ((3 # 10) * delay_factor);
                                         IoClearBuffer])%list)
                      end
                    else
                      (Raise sleep_failure,
                       at_ s3 (seen ++ [IoWrite ("cli" ++ RETURN)])%list)
                end
              else if cli_prompt t then (Ok tt, at_ s2 seen)
              else enter_cli_loop transport RETURN n delay_factor
                     (at_ s2 seen)
          end
        else
          (Raise sleep_failure, at_ s1 (io_log w ++ [IoWrite RETURN])%list)
    end.
Proof.
  cbn [enter_cli_loop]. cbv zeta.
  unfold io_bind, call_write_channel, call_read_channel, call_clear_buffer,
    io_call, sleep, io_ret, sleep_failure.
  cbn [inner io_log session_log_fin session trace].
  destruct (write_channel transport RETURN (session (inner w)))
    as [[u|e] s1]; [|reflexivity].
  cbn [inner io_log session_log_fin session trace].
  destruct (Qle_bool 0 ((1 # 10) * delay_factor)); [|reflexivity].
  cbn [inner io_log session_log_fin session trace].
  destruct (read_channel transport s1) as [[t|e] s2];
    cbn [inner io_log session_log_fin session trace];
    rewrite <- ?app_assoc; cbn [app]; [|reflexivity].
  destruct (shell_prompt t); [|destruct (cli_prompt t); reflexivity].
  cbn [inner io_log session_log_fin session trace].
  destruct (write_channel transport ("cli" ++ RETURN) s2) as [[u'|e] s3];
    cbn [inner io_log session_log_fin session trace];
    rewrite <- ?app_assoc; cbn [app]; [|reflexivity].
  destruct (Qle_bool 0 ((3 # 10) * delay_factor)); [|reflexivity].
  cbn [inner io_log session_log_fin session trace].
  destruct (clear_buffer transport s3) as [[x|e] s4];
    cbn [inner io_log session_log_fin session trace];
    rewrite <- ?app_assoc; cbn [app]; reflexivity.
Qed.

(** Everything about one run of the loop, by induction on the number of
    rounds left. *)
Lemma enter_cli_loop_shape (n : nat) (delay_factor : Q) (w : Wire Chan) :
  exists new k tail,
    io_log (snd (enter_cli_loop transport RETURN n delay_factor w))
    = (io_log w ++ new)%list
    /\ trace (inner (snd (enter_cli_loop transport RETURN n delay_factor w)))
       = trace (inner w)
    /\ writes new = (repeat RETURN k ++ tail)%list
    /\ (k <= n)%nat
    /\ (length (texts_read new) <= k)%nat
    /\ (tail = [] \/ tail = ["cli" ++ RETURN])
    /\ Forall (fun t => shell_prompt t = false /\ cli_prompt t = false)
         (removelast (texts_read new))
    /\ (tail = ["cli" ++ RETURN] <->
        texts_read new <> []
        /\ shell_prompt (last (texts_read new) "") = true)
    /\ (fst (enter_cli_loop transport RETURN n delay_factor w) = Ok tt ->
        tail = [] ->
        k = n
        \/ texts_read new <> []
           /\ cli_prompt (last (texts_read new) "") = true)
    /\ (fst (enter_cli_loop transport RETURN n delay_factor w) = Ok tt ->
        length (texts_read new) = k).
Proof.
  revert w; induction n as [|n IH]; intros w.
  - exists [], O, []. simpl. rewrite app_nil_r.
    repeat split; auto; try easy.
  - rewrite enter_cli_loop_step. cbv zeta.
    destruct (write_channel transport RETURN (session (inner w)))
      as [[u|e] s1].
    2:{ exists [IoWrite RETURN], 1%nat, []. simpl.
        repeat split; auto; try lia; try easy;
          try (intros [? ?]; congruence). }
    destruct (Qle_bool 0 ((1 # 10) * delay_factor)).
    2:{ exists [IoWrite RETURN], 1%nat, []. simpl.
        repeat split; auto; try lia; try easy;
          try (intros [? ?]; congruence). }
    destruct (read_channel transport s1) as [[t|e] s2].
    2:{ exists [IoWrite RETURN; IoSleep ((1 # 10) * delay_factor);
                IoReadFailed], 1%nat, [].
        simpl.
        repeat split; auto; try lia; try easy;
          try (intros [? ?]; congruence). }
    destruct (shell_prompt t) eqn:Hshell.
    { destruct (write_channel transport ("cli" ++ RETURN) s2) as [[u'|e] s3].
      - destruct (Qle_bool 0 ((3 # 10) * delay_factor)).
        + destruct (clear_buffer transport s3) as [r s4].
          exists [IoWrite RETURN; IoSleep ((1 # 10) * delay_factor);
                  IoRead t; IoWrite ("cli" ++ RETURN);
                  IoSleep ((3 # 10) * delay_factor); IoClearBuffer],
            1%nat, ["cli" ++ RETURN].
          cbn [snd fst io_log inner trace]. rewrite <- app_assoc. simpl.
          repeat split; auto; try lia; try easy.
        + exists [IoWrite RETURN; IoSleep ((1 # 10) * delay_factor);
                  IoRead t; IoWrite ("cli" ++ RETURN)],
            1%nat, ["cli" ++ RETURN].
          cbn [snd fst io_log inner trace]. rewrite <- app_assoc. simpl.
          repeat split; auto; try lia; try easy.
      - exists [IoWrite RETURN; IoSleep ((1 # 10) * delay_factor); IoRead t;
                IoWrite ("cli" ++ RETURN)], 1%nat, ["cli" ++ RETURN].
        cbn [snd fst io_log inner trace]. rewrite <- app_assoc. simpl.
        repeat split; auto; try lia; try easy. }
    destruct (cli_prompt t) eqn:Hcli.
    { exists [IoWrite RETURN; IoSleep ((1 # 10) * delay_factor); IoRead t],
        1%nat, [].
      cbn [snd fst io_log inner trace]. simpl.
      repeat split; auto; try lia; try easy;
        try (intros [? ?]; congruence).
      intros _ _. right. split; [discriminate | exact Hcli]. }
    match goal with
    | |- context [enter_cli_loop transport RETURN n delay_factor ?v] =>
        destruct (IH v) as (new & k & tail & Hlog & Htr & Hw & Hk & Hlen
                            & Htail & Hall & Hiff & Hret & Hcount)
    end.
    exists ([IoWrite RETURN; IoSleep ((1 # 10) * delay_factor); IoRead t]
              ++ new)%list, (S k), tail.
    cbn [io_log inner trace session] in Hlog, Htr.
    split; [rewrite Hlog, <- !app_assoc; reflexivity|].
    split; [exact Htr|].
    rewrite writes_app, texts_read_app, Hw. cbn [writes texts_read app repeat].
    split; [reflexivity|]. split; [lia|]. split; [simpl; lia|].
    split; [exact Htail|].
    assert (Hcase : texts_read new = [] \/ texts_read new <> [])
      by (destruct (texts_read new); [now left | now right]).
    split; [|split; [|split]].
    + destruct Hcase as [E|Hne].
      * rewrite E. constructor.
      * destruct (texts_read new) as [|t' l'] eqn:E; [congruence|].
        change (removelast (t :: t' :: l'))
          with (t :: removelast (t' :: l')).
        constructor; auto.
    + destruct Hcase as [E|Hne].
      * rewrite E in *. simpl. rewrite Hiff. split.
        -- intros [H _]. congruence.
        -- intros [_ H]. congruence.
      * rewrite last_cons_text by exact Hne. rewrite Hiff.
        split; intros [_ H]; (split; [discriminate || exact Hne | exact H]).
    + intros Hok Ht. destruct (Hret Hok Ht) as [->|[Hne Hc]]; [now left|].
      right. split; [discriminate|]. now rewrite last_cons_text.
    + intros Hok. simpl. now rewrite (Hcount Hok).
Qed.

Lemma enter_cli_mode_run (w : Wire Chan) :
  enter_cli_mode base transport RETURN w
  = enter_cli_loop transport RETURN 50
      (Juniper.select_delay_factor base 0 (session (inner w))) w.
Proof. reflexivity. Qed.

(** X10. Whatever the device does, [enter_cli_mode] writes [RETURN] at most
    50 times, then "cli" at most once and as its last write; it reads at
    most once per [RETURN] written, and calls no driver method. *)
Theorem enter_cli_mode_bounded (w : Wire Chan) :
  let run := enter_cli_mode base transport RETURN w in
  exists new k tail,
    io_log (snd run) = (io_log w ++ new)%list
    /\ writes new = (repeat RETURN k ++ tail)%list
    /\ (k <= 50)%nat
    /\ (tail = [] \/ tail = ["cli" ++ RETURN])
    /\ (length (texts_read new) <= k)%nat
    /\ trace (inner (snd run)) = trace (inner w).
Proof.
  intros run. subst run. rewrite enter_cli_mode_run.
  destruct (enter_cli_loop_shape 50
              (Juniper.select_delay_factor base 0 (session (inner w))) w)
    as (new & k & tail & Hlog & Htr & Hw & Hk & Hlen & Htail & _).
  exists new, k, tail. auto 10.
Qed.

(** X11. The stopping rule of [enter_cli_mode].  Its writes are [k] times
    [RETURN], then "cli" or nothing.  Every text read before the last
    one was no prompt at all (no "root@", not "%" once stripped, no ">"
    and no "#").  "cli" is written exactly when the last text read
    contains "root@" or strips to "%", whether or not it also shows ">"
    or "#".  On a normal return one text was read per [RETURN] written,
    and if "cli" was not written then the last text showed ">" or "#",
    or all 50 rounds were used up. *)
Theorem enter_cli_mode_stopping_rule (w : Wire Chan) :
  let run := enter_cli_mode base transport RETURN w in
  exists new k tail,
    io_log (snd run) = (io_log w ++ new)%list
    /\ writes new = (repeat RETURN k ++ tail)%list
    /\ (tail = [] \/ tail = ["cli" ++ RETURN])
    /\ Forall (fun t => shell_prompt t = false
                        /\ contains ">" t = false /\ contains "#" t = false)
         (removelast (texts_read new))
    /\ (tail = ["cli" ++ RETURN] <->
        texts_read new <> []
        /\ ((exists a b, last (texts_read new) "" = a ++ "root@" ++ b)
            \/ strip (last (texts_read new) "") = "%"))
    /\ (fst run = Ok tt ->
        length (texts_read new) = k
        /\ (tail = [] ->
            k = 50%nat
            \/ texts_read new <> []
               /\ (contains ">" (last (texts_read new) "") = true
                   \/ contains "#" (last (texts_read new) "") = true))).
Proof.
  intros run. subst run. rewrite enter_cli_mode_run.
  destruct (enter_cli_loop_shape 50
              (Juniper.select_delay_factor base 0 (session (inner w))) w)
    as (new & k & tail & Hlog & Htr & Hw & Hk & Hlen & Htail & Hall
        & Hiff & Hret & Hcount).
  exists new, k, tail. split; [exact Hlog|]. split; [exact Hw|].
  split; [exact Htail|]. split; [|split].
  - eapply Forall_impl; [|exact Hall]. intros t [Hs Hc].
    unfold cli_prompt in Hc. apply orb_false_iff in Hc. tauto.
  - now rewrite <- shell_prompt_spec.
  - intros Hok. split; [now apply Hcount|]. intros Ht.
    destruct (Hret Hok Ht) as [->|[Hne Hc]]; [now left|]. right.
    split; [exact Hne|]. unfold cli_prompt in Hc.
    now apply orb_true_iff in Hc.
Qed.




(** X13. [cleanup] never looks at the mode and never leaves configuration
    mode: its guarded call passes a keyword [pattern] that
    [check_config_mode] does not take, the [TypeError] is swallowed, and
    all that happens is that [_session_log_fin] is set and
    [command + RETURN] is written, once.  [cleanup] raises only if that
    write does. *)
Theorem cleanup_only_writes_the_exit (command : string) (w : Wire Chan) :
  let run := cleanup base transport RETURN command w in
  trace (inner (snd run)) = trace (inner w)
  /\ io_log (snd run) = (io_log w ++ [IoWrite (command ++ RETURN)])%list
  /\ session_log_fin (snd run) = true
  /\ (session (inner (snd run)),
      match fst run with Ok _ => None | Raise e => Some e end)
     = match write_channel transport (command ++ RETURN)
               (session (inner w)) with
       | (Ok _, s') => (s', None)
       | (Raise e, s') => (s', Some (Inherited e))
       end.
Proof.
  intros run. subst run.
  unfold cleanup, io_bind, try_except_pass, lift_M, assign_session_log_fin,
    call_write_channel, io_call, check_config_mode_keywords, raise.
  cbn [find fst negb existsb check_config_mode_parameters String.eqb
         Ascii.eqb Bool.eqb orb inner io_log session_log_fin session trace].
  simpl.
  destruct (write_channel transport (command ++ RETURN) (session (inner w)))
    as [[u|e] s']; simpl; auto.
Qed.

End EnterCli.

(** ** Comware: the base prompt and session preparation *)

Section ComwareFurther.

Import PyStr PyText ComwareSession.
Local Open Scope string_scope.

Variable Chan : Type.
Variable transport : Transport Chan.
Variable RETURN : string.

(** X14. Comware's [set_base_prompt] takes the prompt the inherited method
    found, drops its first character whatever it is, and strips white
    space at both ends.  The result is stored in [base_prompt] and
    returned; it neither starts nor ends with white space, and an empty
    prompt gives an empty result rather than an error.  If the inherited
    method raises, nothing is assigned. *)
Theorem comware_set_base_prompt
    (pri alt : string) (delay_factor : Q) (w : Wire Chan) :
  let run := set_base_prompt transport pri alt delay_factor w in
  match cisco_set_base_prompt transport pri alt delay_factor
          (session (inner w)) with
  | (Ok prompt, s1) =>
      let found := strip (from_1 prompt) in
      fst run = Ok found
      /\ session (inner (snd run)) = set_base_prompt_attr found s1
      /\ (forall c, first_char found = Some c -> is_space c = false)
      /\ (forall c, last_char found = Some c -> is_space c = false)
      /\ (exists a b, from_1 prompt = a ++ found ++ b
                      /\ all_space a = true /\ all_space b = true)
      /\ (prompt = "" -> found = "")
  | (Raise e, s1) =>
      fst run = Raise (Inherited e) /\ session (inner (snd run)) = s1
  end.
Proof.
  intros run. subst run.
  unfold set_base_prompt, io_bind, io_call, assign_base_prompt, io_session,
    io_ret.
  destruct (cisco_set_base_prompt transport pri alt delay_factor
              (session (inner w))) as [[prompt|e] s1];
    cbn [fst snd inner session base_prompt set_base_prompt_attr];
    [|auto].
  split; [reflexivity|]. split; [reflexivity|].
  split; [apply strip_first|]. split; [apply strip_last|].
  split; [apply strip_split | now intros ->].
Qed.

Ltac next_call :=
  cbn [inner io_log session_log_fin session trace fst snd];
  match goal with
  | |- context [Qle_bool 0 ?q] => destruct (Qle_bool 0 q) eqn:?
  | |- context [write_channel transport ?d ?s] =>
      destruct (write_channel transport d s) as [[[]|?] ?] eqn:?
  | |- context [clear_buffer transport ?s] =>
      destruct (clear_buffer transport s) as [[?|?] ?] eqn:?
  | |- context [test_channel_read transport ?p ?s] =>
      destruct (test_channel_read transport p s) as [[?|?] ?] eqn:?
  | |- context [cisco_set_base_prompt transport ?a ?b ?c ?s] =>
      destruct (cisco_set_base_prompt transport a b c s) as [[?|?] ?] eqn:?
  | |- context [disable_paging transport ?c ?s] =>
      destruct (disable_paging transport c s) as [[?|?] ?] eqn:?
  end;
  cbn [inner io_log session_log_fin session trace fst snd].

Ltac close_run k :=
  eexists; exists k;
  split; [first [ rewrite <- ?app_assoc; reflexivity
                | symmetry; apply app_nil_r ]|];
  split; [reflexivity|]; split; [lia|]; discriminate.

Ltac close_failed_run :=
  first [ close_run 0%nat | close_run 1%nat | close_run 2%nat
        | close_run 3%nat | close_run 4%nat ].

(** X15. Comware's [session_preparation] itself writes nothing but
    newlines, at most four, whatever [RETURN] is and whatever fails.
    When it returns, it has written exactly four; it has run, in this
    order, buffer clear, channel test, [set_base_prompt] with ">" and
    "]", [disable_paging] with [RETURN] followed by "screen-length
    disable", buffer clear; and it has slept six times: four times half
    the selected delay factor, then 0.3 times it, then 0.3 times the
    global delay factor, which is the one the session started with, so
    2.3 times the one plus 0.3 times the other in all, when the
    inherited calls leave that attribute alone. *)
Theorem comware_session_preparation (w : Wire Chan) :
  let run := session_preparation transport RETURN w in
  let delay := select_delay_factor transport 0 (session (inner w)) in
  let global := global_delay_factor (session (inner w)) in
  exists new k,
    io_log (snd run) = (io_log w ++ new)%list
    /\ writes new = repeat nl k
    /\ (k <= 4)%nat
    /\ (fst run = Ok tt ->
        k = 4%nat
        /\ filter (fun e => match e with
                            | IoSleep _ | IoWrite _ => false
                            | _ => true
                            end) new
           = [IoClearBuffer; IoTestChannelRead "[>\]]";
              IoSetBasePrompt ">" "]" 1;
              IoDisablePaging (RETURN ++ "screen-length disable");
              IoClearBuffer]
        /\ firstn 5 (sleeps new)
           = [(1 # 2) * delay; (1 # 2) * delay; (1 # 2) * delay;
              (1 # 2) * delay; (3 # 10) * delay]%Q
        /\ length (sleeps new) = 6%nat
        /\ (keeps_global_delay_factor transport ->
            sleeps new
            = [(1 # 2) * delay; (1 # 2) * delay; (1 # 2) * delay;
               (1 # 2) * delay; (3 # 10) * delay; (3 # 10) * global]%Q
            /\ (total (sleeps new)
                == (23 # 10) * delay + (3 # 10) * global)%Q)).
Proof.
  intros run delay global. subst run.
  unfold session_preparation, absorb_banner, set_base_prompt, io_bind,
    io_session, io_call, sleep, assign_base_prompt, io_ret, sleep_failure.
  fold delay.
  repeat next_call; try close_failed_run.
  eexists; exists 4%nat. split; [rewrite <- ?app_assoc; reflexivity|].
  split; [reflexivity|]. split; [lia|]. intros _.
  split; [reflexivity|]. split; [reflexivity|]. split; [reflexivity|].
  split; [reflexivity|].
  intros (Hw & Hc & Ht & Hp & Hd).
  repeat match goal with
  | E : write_channel transport ?d ?s = _ |- _ =>
      let H := fresh "K" in
      pose proof (Hw d s) as H; rewrite E in H; cbn [snd] in H; clear E
  | E : clear_buffer transport ?s = _ |- _ =>
      let H := fresh "K" in
      pose proof (Hc s) as H; rewrite E in H; cbn [snd] in H; clear E
  | E : test_channel_read transport ?p ?s = _ |- _ =>
      let H := fresh "K" in
      pose proof (Ht p s) as H; rewrite E in H; cbn [snd] in H; clear E
  | E : cisco_set_base_prompt transport ?a ?b ?c ?s = _ |- _ =>
      let H := fresh "K" in
      pose proof (Hp a b c s) as H; rewrite E in H; cbn [snd] in H; clear E
  | E : disable_paging transport ?c ?s = _ |- _ =>
      let H := fresh "K" in
      pose proof (Hd c s) as H; rewrite E in H; cbn [snd] in H; clear E
  end.
  cbn [global_delay_factor set_base_prompt_attr] in *.
  match goal with
  | |- context [IoSleep ((3 # 10) * global_delay_factor ?s)] =>
      assert (Hg : global_delay_factor s = global) by (subst global; congruence)
  end.
  cbn [app sleeps]. rewrite Hg. split; [reflexivity|].
  unfold total. cbn [fold_right]. ring.
Qed.

End ComwareFurther.

(** ** Constructors *)

Section ConstructorFacts.

Import Constructors.
Local Open Scope string_scope.

Lemma lookup_store_same (key : string) (value : pyval) (d : dict) :
  lookup key (store key value d) = Some value.
Proof.
  induction d as [|[k v] d IH]; simpl.
  - now rewrite String.eqb_refl.
  - destruct (String.eqb k key) eqn:E; simpl; now rewrite E.
Qed.

Lemma lookup_store_other (key other : string) (value : pyval) (d : dict) :
  other <> key -> lookup other (store key value d) = lookup other d.
Proof.
  intros Hne. induction d as [|[k v] d IH]; simpl.
  - destruct (String.eqb_spec key other); [congruence | reflexivity].
  - destruct (String.eqb_spec k key) as [->|]; simpl.
    + destruct (String.eqb_spec key other); [congruence | reflexivity].
    + now rewrite IH.
Qed.

Lemma lookup_setdefault_same (key : string) (value : pyval) (d : dict) :
  lookup key (setdefault key value d)
  = Some (match lookup key d with Some v => v | None => value end).
Proof.
  unfold setdefault. destruct (lookup key d) eqn:E; [exact E|].
  apply lookup_store_same.
Qed.

Lemma lookup_setdefault_other (key other : string) (value : pyval)
    (d : dict) :
  other <> key -> lookup other (setdefault key value d) = lookup other d.
Proof.
  intros Hne. unfold setdefault. destruct (lookup key d); [reflexivity|].
  now apply lookup_store_other.
Qed.

(** X16. The keyword arguments [JuniperTelnet] hands to [BaseConnection]:
    [default_enter] is the caller's value unless that was missing or
    [None], then it is "\r\n"; [fast_cli] and [_legacy_mode] are the
    caller's values whenever the keys were given at all, even as [None],
    and [True] and [False] otherwise; every other key, and the
    positional arguments, pass through untouched. *)
Theorem JuniperTelnet_init_arguments (args : list pyval) (kwargs : dict) :
  exists passed,
    JuniperTelnet_init args kwargs = Ok (args, passed)
    /\ lookup "default_enter" passed
       = Some (match lookup "default_enter" kwargs with
               | Some PyNone | None => PyStr CRLF
               | Some given => given
               end)
    /\ lookup "fast_cli" passed
       = Some (match lookup "fast_cli" kwargs with
               | Some given => given
               | None => PyBool true
               end)
    /\ lookup "_legacy_mode" passed
       = Some (match lookup "_legacy_mode" kwargs with
               | Some given => given
               | None => PyBool false
               end)
    /\ (forall key,
          key <> "default_enter" -> key <> "fast_cli" ->
          key <> "_legacy_mode" -> lookup key passed = lookup key kwargs).
Proof.
  unfold JuniperTelnet_init, JuniperBase_init. eexists.
  split; [reflexivity|]. split; [|split; [|split]].
  - rewrite !lookup_setdefault_other by discriminate.
    rewrite lookup_store_same. unfold get.
    destruct (lookup "default_enter" kwargs) as [[]|]; reflexivity.
  - rewrite lookup_setdefault_other by discriminate.
    rewrite lookup_setdefault_same.
    now rewrite lookup_store_other by discriminate.
  - rewrite lookup_setdefault_same.
    rewrite lookup_setdefault_other by discriminate.
    now rewrite lookup_store_other by discriminate.
  - intros key H1 H2 H3.
    rewrite !lookup_setdefault_other by assumption.
    now apply lookup_store_other.
Qed.

(** X17. [HPComwareTelnet] takes keyword arguments only: any positional
    argument ends in a [TypeError], because [HPComwareBase.__init__] has
    no positional parameter.  Without positional arguments, what is
    handed on has [default_enter] and [global_cmd_verify] never [None]
    ("\r\n" and [False] replace a missing or [None] value, anything else
    is kept), and every other key untouched. *)
Theorem HPComwareTelnet_init_arguments (args : list pyval) (kwargs : dict) :
  match args with
  | _ :: _ =>
      exists msg,
        HPComwareTelnet_init args kwargs
        = Raise (Inherited (BuiltinError "TypeError" msg))
  | [] =>
      exists passed,
        HPComwareTelnet_init args kwargs = Ok ([], passed)
        /\ lookup "default_enter" passed
           = Some (match lookup "default_enter" kwargs with
                   | Some PyNone | None => PyStr CRLF
                   | Some given => given
                   end)
        /\ lookup "global_cmd_verify" passed
           = Some (match lookup "global_cmd_verify" kwargs with
                   | Some PyNone | None => PyBool false
                   | Some given => given
                   end)
        /\ (forall key,
              key <> "default_enter" -> key <> "global_cmd_verify" ->
              lookup key passed = lookup key kwargs)
  end.
Proof.
  destruct args as [|a args]; [|eexists; reflexivity].
  unfold HPComwareTelnet_init, HPComwareBase_init.
  set (kw := store "default_enter" _ kwargs).
  assert (Hde : lookup "default_enter" kw
                = Some (match lookup "default_enter" kwargs with
                        | Some PyNone | None => PyStr CRLF
                        | Some given => given
                        end)).
  { subst kw. rewrite lookup_store_same. unfold get.
    destruct (lookup "default_enter" kwargs) as [[]|]; reflexivity. }
  assert (Hother : forall key, key <> "default_enter" ->
                               lookup key kw = lookup key kwargs)
    by (intros key H; subst kw; now apply lookup_store_other).
  unfold get. rewrite (Hother "global_cmd_verify") by discriminate.
  destruct (lookup "global_cmd_verify" kwargs) as [v|] eqn:G.
  - destruct v; simpl; (eexists; split; [reflexivity|]).
    2-5: (split; [exact Hde|];
          split; [rewrite Hother by discriminate; exact G|];
          intros key H1 _; now apply Hother).
    rewrite lookup_store_other by discriminate.
    rewrite lookup_store_same. split; [exact Hde|]. split; [reflexivity|].
    intros key H1 H2. rewrite lookup_store_other by assumption.
    now apply Hother.
  - simpl. eexists. split; [reflexivity|].
    rewrite lookup_store_other by discriminate.
    rewrite lookup_store_same. split; [exact Hde|]. split; [reflexivity|].
    intros key H1 H2. rewrite lookup_store_other by assumption.
    now apply Hother.
Qed.

End ConstructorFacts.

(** ** The further theorems at work on the scripted devices *)

Section FurtherOnTheDevice.

Import PyStr PyText Juniper Design.
Local Open Scope string_scope.

Lemma commit_return_holds_marker_witness :
  exists returned,
    fst (commit Sim.junos Sim.re_escape true (Some 10%Z) false "" false 1%Q
           (Sim.fresh true Sim.operational)) = Ok returned
    /\ contains "commit confirmed will be automatically rolled back in"
         returned = true.
Proof.
  eexists. split; [vm_compute; reflexivity|].
  apply (commit_return_holds_marker Sim.Device Sim.junos Sim.re_escape
           true (Some 10%Z) false "" false 1%Q
           (Sim.fresh true Sim.operational)).
  vm_compute. reflexivity.
Defined.

Lemma commit_command_quotes_witness :
  count_char DQUOTE
    (fst (match commit_command false None false "nightly change" true with
          | Ok built => built
          | Raise _ => ("", "")
          end)) = 2%nat.
Proof.
  apply (commit_command_quotes false None false "nightly change" true _
           "commit complete").
  reflexivity.
Defined.

Lemma exit_config_mode_returns_out_of_config_witness :
  exists probed,
    base_check_config_mode Sim.junos "]" probed
    = (Ok false,
       session (snd (exit_config_mode Sim.junos "exit configuration-mode"
                       (Sim.fresh true Sim.editing)))).
Proof.
  eapply (exit_config_mode_returns_out_of_config Sim.Device Sim.junos
            "exit configuration-mode" (Sim.fresh true Sim.editing)).
  vm_compute. reflexivity.
Defined.

Lemma strip_context_items_trailing_terminator_witness :
  strip_context_items (session (Sim.fresh true Sim.editing))
    ("show version" ++ nl ++ "{master:0}" ++ nl)
  = Ok ("show version" ++ nl ++ "{master:0}" ++ nl).
Proof.
  apply (strip_context_items_trailing_terminator Sim.Device
           (session (Sim.fresh true Sim.editing)) LF
           ("show version" ++ nl ++ "{master:0}")).
  reflexivity.
Defined.

Lemma strip_prompt_keeps_a_prefix_witness :
  JuniperSession.strip_prompt SimWire.scripted
    (session (inner (SimWire.start [])))
    ("Hostname: vmx" ++ nl ++ "Model: vmx" ++ nl ++ "{master:0}" ++ nl
       ++ "root@vmx> ")
  = Ok ("Hostname: vmx" ++ nl ++ "Model: vmx").
Proof.
  destruct (strip_prompt_keeps_a_prefix SimWire.Script SimWire.scripted
              (session (inner (SimWire.start [])))
              ("Hostname: vmx" ++ nl ++ "Model: vmx" ++ nl ++ "{master:0}"
                 ++ nl ++ "root@vmx> ")
              ("Hostname: vmx" ++ nl ++ "Model: vmx" ++ nl ++ "{master:0}"))
    as (before & last_line & Hl & Hb & _ & _ & H & _);
    [discriminate | reflexivity |].
  rewrite H; [rewrite Hb; reflexivity|].
  rewrite Hl. apply strings_to_strip_spec. reflexivity.
Defined.

Lemma comware_session_preparation_witness :
  (total (sleeps (io_log (snd (ComwareSession.session_preparation
                                  SimWire.comware nl
                                  SimWire.comware_start))))
   == (23 # 10) * 2 + (3 # 10) * 2)%Q.
Proof.
  destruct (comware_session_preparation unit SimWire.comware nl
              SimWire.comware_start) as (new & k & Hlog & _ & _ & H).
  change (io_log (snd (ComwareSession.session_preparation SimWire.comware
                         nl SimWire.comware_start)) = new) in Hlog.
  destruct (H eq_refl) as (_ & _ & _ & _ & Hs).
  assert (Hkeep : ComwareSession.keeps_global_delay_factor SimWire.comware)
    by (repeat split).
  destruct (Hs Hkeep) as [_ Ht]. rewrite <- Hlog in Ht. exact Ht.
Defined.


End FurtherOnTheDevice.
